(** * rbac-shield: the permission evaluation core

    A shallow embedding of the TypeScript sources of rbac-shield:

    - [checkPermission]            (checkPermission.ts)
    - [guard], [match_]            (guards.ts; the dispatcher is exported there
                                    as [match], a reserved word here)
    - [processTenants], [setAuth], [switchTenant], [reset], the hooks and
      [checkAccess]                (the [createRBAC] factory)

    JavaScript strings are modelled by [string]; the code only ever compares
    strings for equality, concatenates them and splits them at [":"], so the
    width of a character plays no role.  Arrays are lists.  Objects used as
    dictionaries ([tenants], a tenant's [map]) are plain objects: their own
    properties are a finite map [gmap string _], and a read that finds no own
    property falls through to [Object.prototype] ([plain_get]).  The handler
    object of the dispatcher is the list of its [Object.entries], because the
    order of its keys matters. *)

From Stdlib Require Import String Ascii List Bool ZArith Lia.
From stdpp Require Import base gmap strings list fin_maps.

(** ** Strings and arrays of strings *)

(** [s.split(sep)] for a one-character separator: the pieces between the
    occurrences of [sep]; always at least one piece. *)
Fixpoint split (sep : ascii) (s : string) : list string :=
  match s with
  | EmptyString => [EmptyString]
  | String c rest =>
      if Ascii.eqb c sep then EmptyString :: split sep rest
      else match split sep rest with
           | piece :: pieces => String c piece :: pieces
           | [] => [String c EmptyString]
           end
  end.

(** [arr.includes(x)] on an array of strings. *)
Definition includes (arr : list string) (x : string) : bool :=
  existsb (String.eqb x) arr.

(** Truthiness of a string: every string but the empty one. *)
Definition truthy_string (s : string) : bool :=
  match s with
  | EmptyString => false
  | String _ _ => true
  end.

(** ** checkPermission.ts *)

Definition checkPermission (heldPermissions : list string)
    (requiredPermission : string) : bool :=
  (* 1. global wildcard *)
  if includes heldPermissions "*" then true
  (* 2. exact match *)
  else if includes heldPermissions requiredPermission then true
  (* 3. resource wildcard: [const [resource] = requiredPermission.split(':')] *)
  else match split ":" requiredPermission with
       | resource :: _ =>
           if truthy_string resource && includes heldPermissions (resource +:+ ":*")
           then true else false
       | [] => false
       end.

(** The [resource] of step 3: the first piece of the split. *)
Definition resource_of (requiredPermission : string) : string :=
  match split ":" requiredPermission with
  | resource :: _ => resource
  | [] => EmptyString
  end.

(** *** The words of the specification about the resource of a permission *)

(** Does the string contain the character [c]? *)
Fixpoint contains_char (c : ascii) (s : string) : bool :=
  match s with
  | EmptyString => false
  | String d rest => Ascii.eqb d c || contains_char c rest
  end.

(** The characters of [s] in front of the first [c] (all of [s] when there is
    no [c]). *)
Fixpoint before_first (c : ascii) (s : string) : string :=
  match s with
  | EmptyString => EmptyString
  | String d rest => if Ascii.eqb d c then EmptyString else String d (before_first c rest)
  end.

(** The resource as the specification words it: the part in front of the
    first [":"], and the empty string when there is no [":"]. *)
Definition spec_resource (required : string) : string :=
  if contains_char ":" required then before_first ":" required else EmptyString.

(** The matcher as the specification words it, over [spec_resource]. *)
Definition spec_matches (held : list string) (required : string) : Prop :=
  In "*"%string held \/ In required held \/
  (spec_resource required <> EmptyString /\ In (spec_resource required +:+ ":*") held).


(** ** The tenant record and [checkAccess] *)

(** One entry of [state.tenants]: [{ roles, permissions, map }]. *)
Record TenantRecord : Type := mkTenant {
  roles : list string;
  permissions : list string;
  perm_map : gmap string bool   (* the field [map] *)
}.

(** The argument [requirements: { roles?: string[]; permissions?: string[] }];
    [None] is an absent field. *)
Record Requirements : Type := mkReq {
  req_roles : option (list string);
  req_permissions : option (list string)
}.

(** [xs && xs.length > 0], also the truthiness of [xs?.length]. *)
Definition has_items (xs : option (list string)) : bool :=
  match xs with
  | Some (_ :: _) => true
  | _ => false
  end.

(** The array behind an optional field that [has_items]. *)
Definition items (xs : option (list string)) : list string :=
  match xs with
  | Some l => l
  | None => []
  end.

(** The local [roleMatch] of [checkAccess]. *)
Definition roleMatch (tenant : TenantRecord) (requirements : Requirements) : bool :=
  if has_items (req_roles requirements) then
    if includes (roles tenant) "*" then true
    else existsb (fun r => includes (roles tenant) r) (items (req_roles requirements))
  else true.

(** The local [permMatch] of [checkAccess]. *)
Definition permMatch (tenant : TenantRecord) (requirements : Requirements)
    (requireAll : bool) : bool :=
  if has_items (req_permissions requirements) then
    if includes (permissions tenant) "*" then true
    else if requireAll then
      forallb (fun p => checkPermission (permissions tenant) p)
              (items (req_permissions requirements))
    else
      existsb (fun p => checkPermission (permissions tenant) p)
              (items (req_permissions requirements))
  else true.

Definition checkAccess (tenant : TenantRecord) (requirements : Requirements)
    (requireAll : bool) : bool :=
  if has_items (req_roles requirements) && has_items (req_permissions requirements)
  then roleMatch tenant requirements && permMatch tenant requirements requireAll
  else if has_items (req_roles requirements) then roleMatch tenant requirements
  else if has_items (req_permissions requirements)
  then permMatch tenant requirements requireAll
  else true.

(** ** The store: [processTenants] and the provider's three operations *)

(** One element of the second input shape, [{ tenantId, roles?, permissions }]. *)
Record TenantAuthInput : Type := mkInput {
  tenantId : string;
  in_roles : option (list string);
  in_permissions : list string
}.

(** The argument type [TenantAuthInput[] | string[]].  The empty array
    inhabits both sides of the union; the code cannot tell them apart and
    neither do the definitions below. *)
Inductive AuthInput : Type :=
  | StringArray (ps : list string)
  | TenantArray (ts : list TenantAuthInput).

Definition input_length (authInput : AuthInput) : nat :=
  match authInput with
  | StringArray ps => length ps
  | TenantArray ts => length ts
  end.

(** [typeof authInput[0] === "string"]. *)
Definition first_is_string (authInput : AuthInput) : bool :=
  match authInput with
  | StringArray (_ :: _) => true
  | _ => false
  end.

(** [authInput as string[]], used when the array is empty or starts with a
    string. *)
Definition as_strings (authInput : AuthInput) : list string :=
  match authInput with
  | StringArray ps => ps
  | TenantArray _ => []
  end.

(** [authInput as TenantAuthInput[]], used when the array is not empty and
    starts with an object. *)
Definition as_tenants (authInput : AuthInput) : list TenantAuthInput :=
  match authInput with
  | TenantArray ts => ts
  | StringArray _ => []
  end.

(** [curr.permissions.reduce((pMap, p) => ({ ...pMap, [p]: true }), {})]. *)
Definition build_map (ps : list string) : gmap string bool :=
  fold_left (fun pMap p => <[p := true]> pMap) ps ∅.

(** The record built for one element of [authArray]. *)
Definition record_of (curr : TenantAuthInput) : TenantRecord :=
  {| roles := match in_roles curr with Some rs => rs | None => [] end;
     permissions := in_permissions curr;
     perm_map := build_map (in_permissions curr) |}.

Definition processTenants (authInput : AuthInput) : gmap string TenantRecord :=
  let authArray :=
    if (input_length authInput =? 0)%nat || first_is_string authInput
    then [ {| tenantId := "default"; in_roles := None;
              in_permissions := as_strings authInput |} ]
    else as_tenants authInput in
  fold_left (fun acc curr => <[tenantId curr := record_of curr]> acc) authArray ∅.

(** [RBACState], generic in the type of the tenant records. *)
Record RBACState (T : Type) : Type := mkState {
  activeTenantId : option string;   (* [string | null] *)
  tenants : gmap string T;
  isLoading : bool
}.
Arguments mkState {T} _ _ _.
Arguments activeTenantId {T} _.
Arguments tenants {T} _.
Arguments isLoading {T} _.

(** Truthiness of [state.activeTenantId]: neither [null] nor [""]. *)
Definition truthy_id (id : option string) : bool :=
  match id with
  | Some s => truthy_string s
  | None => false
  end.

(** Truthiness of a property read that yields an object or [undefined]. *)
Definition is_defined {A : Type} (o : option A) : bool :=
  match o with
  | Some _ => true
  | None => false
  end.

(** The state of an unauthenticated provider. *)
Definition empty_state {T : Type} : RBACState T :=
  {| activeTenantId := None; tenants := ∅; isLoading := true |}.

(** The initialiser passed to [useState] in [RBACProvider]. *)
Definition initial_state (initialData : option AuthInput) : RBACState TenantRecord :=
  match initialData with
  | Some data =>
      if (0 <? input_length data)%nat then
        let tenants := processTenants data in
        {| activeTenantId :=
             if is_defined (tenants !! "default") then Some "default"%string else None;
           tenants := tenants;
           isLoading := false |}
      else empty_state
  | None => empty_state
  end.

(** [setAuth].  [state] is the variable of the render in which the callback
    was created; [prev] is the argument of the updater given to [setState],
    the state at the time of the call.  For the typed inputs of this
    definition [processTenants] cannot throw, so the [catch] branch is not
    reached (see [Untyped.setAuth] for arbitrary values). *)
Definition setAuth (state : RBACState TenantRecord) (authInput : AuthInput)
    (prev : RBACState TenantRecord) : RBACState TenantRecord :=
  let tenants := processTenants authInput in
  let shouldAutoSwitch :=
    is_defined (tenants !! "default") && negb (truthy_id (activeTenantId state)) in
  {| activeTenantId :=
       if shouldAutoSwitch then Some "default"%string else activeTenantId prev;
     tenants := tenants;
     isLoading := false |}.

Definition switchTenant {T : Type} (tenantId : string) (prev : RBACState T)
    : RBACState T :=
  {| activeTenantId := Some tenantId;
     tenants := tenants prev;
     isLoading := isLoading prev |}.

Definition reset {T : Type} : RBACState T := empty_state.

(** *** The provider component

    [setAuth] is memoised with [useCallback(..., [log])], and [log] with
    [useCallback(..., [debug])]: the callback handed out by the provider is
    the one created in the first render, or in the last render in which the
    [debug] prop changed.  The [state] it reads is the state of that render. *)
Record Provider : Type := mkProvider {
  current : RBACState TenantRecord;     (* the state held by [useState] *)
  debug : bool;                         (* the [debug] prop *)
  closed_over : RBACState TenantRecord  (* [state] as seen by the memoised [setAuth] *)
}.

Definition mount (debug : bool) (initialData : option AuthInput) : Provider :=
  {| current := initial_state initialData;
     debug := debug;
     closed_over := initial_state initialData |}.

(** What can happen to a mounted provider. *)
Inductive Event : Type :=
  | CallSetAuth (authInput : AuthInput)
  | CallSwitchTenant (tenantId : string)
  | CallReset
  | RenderWithDebug (debug : bool).

Definition handle (p : Provider) (e : Event) : Provider :=
  match e with
  | CallSetAuth authInput =>
      {| current := setAuth (closed_over p) authInput (current p);
         debug := debug p; closed_over := closed_over p |}
  | CallSwitchTenant tenantId =>
      {| current := switchTenant tenantId (current p);
         debug := debug p; closed_over := closed_over p |}
  | CallReset =>
      {| current := reset; debug := debug p; closed_over := closed_over p |}
  | RenderWithDebug d =>
      if Bool.eqb d (debug p) then p
      else {| current := current p; debug := d; closed_over := current p |}
  end.

Definition run (p : Provider) (events : list Event) : Provider :=
  fold_left handle events p.

(** ** Failure

    What a JavaScript function call can produce: a value, or a thrown
    exception.  The code throws [new Error(message)] itself; the runtime
    raises [TypeError]s. *)

Inductive Thrown : Type :=
  | ErrorObject (message : string)
  | TypeErrorObject.

Inductive Result (A : Type) : Type :=
  | Ok (value : A)
  | Throw (error : Thrown).
Arguments Ok {A} _.
Arguments Throw {A} _.

#[export] Instance result_ret : MRet Result := fun A x => Ok x.
#[export] Instance result_bind : MBind Result := fun A B f m =>
  match m with
  | Ok x => f x
  | Throw e => Throw e
  end.

(** [try { body } catch (error) { handler }]. *)
Definition try_catch {A : Type} (body : Result A) (handler : Thrown -> Result A)
    : Result A :=
  match body with
  | Ok x => Ok x
  | Throw error => handler error
  end.

(** ** Plain objects

    [state.tenants] and a tenant's [map] are built from [{}] by spreading:
    plain objects, whose prototype is [Object.prototype].  A read [obj[key]]
    yields the own property [key] if there is one, and otherwise what
    [Object.prototype] has under that name: one of its methods, or, for
    ["__proto__"], the prototype itself.  Each of these is a truthy object
    with no property [roles], [permissions] or [map].  (The reads at the
    fixed keys ["default"] and ["*"] are reads of own properties, since
    neither names a member of [Object.prototype].) *)

(** The property names of [Object.prototype]. *)
Definition object_prototype_names : list string :=
  ["constructor"; "hasOwnProperty"; "isPrototypeOf"; "propertyIsEnumerable";
   "toLocaleString"; "toString"; "valueOf"; "__proto__"; "__defineGetter__";
   "__defineSetter__"; "__lookupGetter__"; "__lookupSetter__"]%string.

Definition proto_member (key : string) : bool :=
  includes object_prototype_names key.

(** What [obj[key]] finds. *)
Inductive Lookup (A : Type) : Type :=
  | Own (value : A)    (* an own property *)
  | Inherited          (* a member of [Object.prototype] *)
  | Missing.           (* [undefined] *)
Arguments Own {A} _.
Arguments Inherited {A}.
Arguments Missing {A}.

Definition plain_get {A : Type} (obj : gmap string A) (key : string) : Lookup A :=
  match obj !! key with
  | Some value => Own value
  | None => if proto_member key then Inherited else Missing
  end.

(** The type [PermissionString] of types.ts: ["<R>:<A>"], ["*"] or
    ["routes:<string>"], that is, a string with a [":"] in it or ["*"]. *)
Definition is_permission_string (s : string) : bool :=
  contains_char ":" s || String.eqb s "*".

(** ** The hooks

    Every hook keeps a [mounted] flag, false in its first render and true
    afterwards; it is an argument here.  A hook that throws does so while
    its component renders. *)

(** [state.tenants[state.activeTenantId]] behind the test
    [!state.activeTenantId]: [Missing] stands for a falsy id as well as for
    an id under which nothing is found. *)
Definition active_entry {T : Type} (state : RBACState T) : Lookup T :=
  match activeTenantId state with
  | Some id => if truthy_string id then plain_get (tenants state) id else Missing
  | None => Missing
  end.

(** The record of the active tenant: the own property of [tenants] under a
    truthy active id.  (A notion for statements; the hooks go through
    [active_entry].) *)
Definition active_tenant {T : Type} (state : RBACState T) : option T :=
  match activeTenantId state with
  | Some id => if truthy_string id then tenants state !! id else None
  | None => None
  end.

(** [checkAccess] applied to an inherited member of [Object.prototype]
    instead of a tenant record: [tenant.roles] and [tenant.permissions] are
    [undefined], so the first category that is requested throws on
    [.includes]; with nothing requested the call returns [true]. *)
Definition checkAccess_inherited (requirements : Requirements) : Result bool :=
  if has_items (req_roles requirements) then Throw TypeErrorObject
  else if has_items (req_permissions requirements) then Throw TypeErrorObject
  else Ok true.

Definition useHasRole (mounted : bool) (state : RBACState TenantRecord)
    (role : string) : Result bool :=
  if negb mounted || isLoading state then Ok false
  else match active_entry state with
       | Missing => Ok false
       | Own tenant =>
           Ok (checkAccess tenant
                 {| req_roles := Some [role]; req_permissions := None |} false)
       | Inherited =>
           checkAccess_inherited {| req_roles := Some [role]; req_permissions := None |}
       end.

Definition useHasPermission (mounted : bool) (state : RBACState TenantRecord)
    (permission : string) : Result bool :=
  if negb mounted || isLoading state then Ok false
  else match active_entry state with
       | Missing => Ok false
       | Own tenant =>
           Ok (checkAccess tenant
                 {| req_roles := None; req_permissions := Some [permission] |} false)
       | Inherited =>
           checkAccess_inherited
             {| req_roles := None; req_permissions := Some [permission] |}
       end.

(** Truthiness of [tenant.map[p]]: the own entry, or an inherited member. *)
Definition map_has (tenant : TenantRecord) (p : string) : bool :=
  match plain_get (perm_map tenant) p with
  | Own b => b
  | Inherited => true
  | Missing => false
  end.

(** The bulk checks read [tenant?.map["*"]]; on an inherited member
    [tenant.map] is [undefined] and indexing it throws. *)
Definition useHasAnyPermission (mounted : bool) (state : RBACState TenantRecord)
    (permissions : list string) : Result bool :=
  if negb mounted || isLoading state then Ok false
  else match active_entry state with
       | Missing => Ok false
       | Own tenant =>
           Ok (if map_has tenant "*" then true
               else existsb (fun p => map_has tenant p) permissions)
       | Inherited => Throw TypeErrorObject
       end.

Definition useHasAllPermissions (mounted : bool) (state : RBACState TenantRecord)
    (permissions : list string) : Result bool :=
  if negb mounted || isLoading state then Ok false
  else match active_entry state with
       | Missing => Ok false
       | Own tenant =>
           Ok (if map_has tenant "*" then true
               else forallb (fun p => map_has tenant p) permissions)
       | Inherited => Throw TypeErrorObject
       end.

(** [usePermissions]: no test of [isLoading] here; on an inherited member
    [?.permissions] is [undefined] and [|| []] gives the empty array. *)
Definition usePermissions (mounted : bool) (state : RBACState TenantRecord)
    : list string :=
  if negb mounted then []
  else match active_entry state with
       | Own tenant => permissions tenant
       | Inherited | Missing => []
       end.

(** The callback returned by [useAccess], applied to [requirements]. *)
Definition useAccess (mounted : bool) (state : RBACState TenantRecord)
    (requirements : Requirements) : Result bool :=
  let unready :=
    if negb (has_items (req_roles requirements))
       && negb (has_items (req_permissions requirements))
    then true else false in
  if negb mounted || isLoading state then Ok unready
  else match active_entry state with
       | Missing => Ok unready
       | Own tenant => Ok (checkAccess tenant requirements false)
       | Inherited => checkAccess_inherited requirements
       end.

(** ** Effects of the callers' actions and handlers *)

(** The message of the error thrown by [guard]. *)
Definition denied_message (required : string) : string :=
  "[RBAC Shield] Access Denied: Missing permission '" +:+ required +:+ "'".

(** [needle] occurs in [text]. *)
Definition occurs_in (needle text : string) : Prop :=
  exists before after : string, text = before +:+ needle +:+ after.

(** [obj[key]] on the entries of an object: the value of the own property
    [key], if there is one. *)
Fixpoint property {A : Type} (key : string) (entries : list (string * A)) : option A :=
  match entries with
  | [] => None
  | (k, v) :: rest => if String.eqb k key then Some v else property key rest
  end.

Section Effects.

(** Whatever the actions and handlers of the caller act upon. *)
Variable World : Type.

(** A call that may change the world and returns or throws.  For an
    [async] function, [Ok] is a fulfilled and [Throw] a rejected promise. *)
Definition Eff (A : Type) : Type := World -> Result A * World.

Definition ret {A : Type} (x : A) : Eff A := fun w => (Ok x, w).

Definition throw {A : Type} (error : Thrown) : Eff A := fun w => (Throw error, w).

Definition bind {A B : Type} (m : Eff A) (k : A -> Eff B) : Eff B :=
  fun w =>
    match m w with
    | (Ok x, w') => k x w'
    | (Throw error, w') => (Throw error, w')
    end.

(** *** guards.ts: [guard] *)

Definition guard {Args Return : Type} (userPermissions : list string)
    (required : string) (action : Args -> Eff Return) : Args -> Eff Return :=
  fun args =>
    let hasAccess := checkPermission userPermissions required in
    if negb hasAccess then throw (ErrorObject (denied_message required))
    else action args.

(** *** guards.ts: [match], here [match_]

    [handlers] is [Object.entries(handlers)]; the result [None] is
    [undefined]. *)

(** The [for] loop over the entries, followed by [fallback] when the loop
    runs to its end. *)
Fixpoint match_loop {Return : Type} (userPermissions : list string)
    (entries : list (string * Eff Return)) (fallback : Eff (option Return))
    : Eff (option Return) :=
  match entries with
  | [] => fallback
  | (permission, handler) :: rest =>
      if String.eqb permission "default" then match_loop userPermissions rest fallback
      else if checkPermission userPermissions permission
      then bind handler (fun r => ret (Some r))
      else match_loop userPermissions rest fallback
  end.

(** [handlers.default ? handlers.default() : undefined]. *)
Definition run_default {Return : Type} (handlers : list (string * Eff Return))
    : Eff (option Return) :=
  match property "default" handlers with
  | Some handler => bind handler (fun r => ret (Some r))
  | None => ret None
  end.

Definition match_ {Return : Type} (userPermissions : list string)
    (handlers : list (string * Eff Return)) : Eff (option Return) :=
  match_loop userPermissions handlers (run_default handlers).

(** *** The hook [usePermissionMatch] *)

(** Modelled from the spec: [matchPermission], which the store imports from
    [./guards] and which the guards.ts at hand does not export (it exports
    [guard] and [match]).  The specification (4.4, [matchFirst], whose
    semantics 4.6 gives to [match] as well): the handler keys are gone
    through in their defined order; the first handler whose key satisfies the
    matcher against the permissions is invoked and its result returned; if
    none matches, the default handler is invoked if present; otherwise there
    is no result. *)
Definition matchPermission {Return : Type} (heldPermissions : list string)
    (handlers : list (string * Eff Return)) : Eff (option Return) :=
  match List.find (fun e => negb (String.eqb (fst e) "default")
                            && checkPermission heldPermissions (fst e)) handlers with
  | Some e => bind (snd e) (fun r => ret (Some r))
  | None => run_default handlers
  end.

(** The hook: without a mounted component or an entry for the active tenant
    it goes for the default handler at once; otherwise it hands
    [state.tenants[id].permissions || []] to [matchPermission]. *)
Definition usePermissionMatch {Return : Type} (mounted : bool)
    (state : RBACState TenantRecord) (handlers : list (string * Eff Return))
    : Eff (option Return) :=
  if negb mounted then run_default handlers
  else match active_entry state with
       | Missing => run_default handlers
       | Own tenant => matchPermission (permissions tenant) handlers
       | Inherited => matchPermission [] handlers
       end.

(** *** The words of the specification about the dispatcher *)

(** [entries] splits at its first key that is not ["default"] and that the
    matcher accepts. *)
Definition first_match {Return : Type} (held : list string)
    (entries : list (string * Eff Return)) (key : string) (handler : Eff Return)
    : Prop :=
  exists before after : list (string * Eff Return),
    entries = before ++ (key, handler) :: after /\
    key <> "default"%string /\
    checkPermission held key = true /\
    Forall (fun e => fst e = "default"%string \/ checkPermission held (fst e) = false)
           before.

(** No key other than ["default"] is accepted by the matcher. *)
Definition no_match {Return : Type} (held : list string)
    (entries : list (string * Eff Return)) : Prop :=
  Forall (fun e => fst e = "default"%string \/ checkPermission held (fst e) = false)
         entries.

End Effects.

Arguments ret {World A} _ _.
Arguments throw {World A} _ _.
Arguments bind {World A B} _ _ _.
Arguments guard {World Args Return} _ _ _ _ _.
Arguments match_loop {World Return} _ _ _ _.
Arguments run_default {World Return} _ _.
Arguments match_ {World Return} _ _ _.
Arguments matchPermission {World Return} _ _ _.
Arguments usePermissionMatch {World Return} _ _ _ _.
Arguments first_match {World Return} _ _ _ _.
Arguments no_match {World Return} _ _.

(** ** The store on arbitrary JavaScript values

    [setAuth] is typed [TenantAuthInput[] | string[]], but the types are
    erased at run time and [processTenants] is written to meet whatever it is
    given.  This module follows it over plain data: [undefined], [null],
    booleans, numbers, strings, arrays and objects made of these.  A number is
    given by the two things the code can observe of it: the string JavaScript
    prints for it and whether it is truthy (neither zero nor [NaN]). *)
Module Untyped.

#[warnings="-register-all"]
Inductive JsVal : Type :=
  | JUndefined
  | JNull
  | JBool (b : bool)
  | JNum (printed : string) (nonzero : bool)
  | JStr (s : string)
  | JArr (elems : list JsVal)
  | JObj (fields : list (string * JsVal)).

(** Truthiness, as in [curr.roles || []]. *)
Definition truthy (v : JsVal) : bool :=
  match v with
  | JUndefined | JNull => false
  | JBool b => b
  | JNum _ nonzero => nonzero
  | JStr s => truthy_string s
  | JArr _ | JObj _ => true
  end.

(** [v.name] for a name that is neither [length] nor an index: throws on
    [undefined] and [null], reads an own property of an object, and is
    [undefined] on anything else. *)
Definition get (v : JsVal) (name : string) : Result JsVal :=
  match v with
  | JUndefined | JNull => Throw TypeErrorObject
  | JObj fields =>
      match property name fields with
      | Some x => Ok x
      | None => Ok JUndefined
      end
  | _ => Ok JUndefined
  end.

(** The conversion of a computed property key to a string.  An array joins
    its elements with [","], printing [undefined] and [null] as nothing; an
    object prints as ["[object Object]"], unless an own [toString] property
    (never callable here) hides the inherited method, which is a
    [TypeError]. *)
Fixpoint toPropertyKey (v : JsVal) : Result string :=
  match v with
  | JUndefined => Ok "undefined"%string
  | JNull => Ok "null"%string
  | JBool true => Ok "true"%string
  | JBool false => Ok "false"%string
  | JNum printed _ => Ok printed
  | JStr s => Ok s
  | JArr elems =>
      (fix join (l : list JsVal) : Result string :=
         match l with
         | [] => Ok EmptyString
         | x :: rest =>
             s ← match x with
                 | JUndefined | JNull => Ok EmptyString
                 | _ => toPropertyKey x
                 end;
             match rest with
             | [] => Ok s
             | _ :: _ => r ← join rest; Ok (s +:+ "," +:+ r)
             end
         end) elems
  | JObj fields =>
      if is_defined (property "toString" fields) then Throw TypeErrorObject
      else Ok "[object Object]"%string
  end.

(** [arr.reduce(f, init)] for a callback that may throw. *)
Fixpoint reduce {A B : Type} (f : A -> B -> Result A) (arr : list B) (init : A)
    : Result A :=
  match arr with
  | [] => Ok init
  | x :: rest => acc ← f init x; reduce f rest acc
  end.

(** [v.reduce(f, init)]: only arrays have a callable [reduce]. *)
Definition reduce_of {A : Type} (v : JsVal) (f : A -> JsVal -> Result A) (init : A)
    : Result A :=
  match v with
  | JArr elems => reduce f elems init
  | _ => Throw TypeErrorObject
  end.

(** A tenant record as [processTenants] builds it from untyped data. *)
Record RawTenant : Type := mkRaw {
  raw_roles : JsVal;
  raw_permissions : JsVal;
  raw_map : gmap string bool
}.

(** [typeof authInput[0] === "string"]. *)
Definition first_is_string (elems : list JsVal) : bool :=
  match elems with
  | JStr _ :: _ => true
  | _ => false
  end.

(** The callback of the outer [reduce]. *)
Definition add_tenant (acc : gmap string RawTenant) (curr : JsVal)
    : Result (gmap string RawTenant) :=
  id ← get curr "tenantId";
  key ← toPropertyKey id;
  rs ← get curr "roles";
  ps ← get curr "permissions";
  pMap ← reduce_of ps (fun pMap p => k ← toPropertyKey p; Ok (<[k := true]> pMap)) ∅;
  Ok (<[key := {| raw_roles := if truthy rs then rs else JArr [];
                  raw_permissions := ps;
                  raw_map := pMap |}]> acc).

Definition processTenants (authInput : JsVal) : Result (gmap string RawTenant) :=
  let authArray :=
    match authInput with
    | JArr elems =>
        if (length elems =? 0)%nat || first_is_string elems
        then JArr [ JObj [("tenantId"%string, JStr "default");
                          ("permissions"%string, authInput)] ]
        else authInput
    | _ => authInput
    end in
  reduce_of authArray add_tenant ∅.

(** [setAuth], with its [try] and [catch]. *)
Definition setAuth (state : RBACState RawTenant) (authInput : JsVal)
    (prev : RBACState RawTenant) : Result (RBACState RawTenant) :=
  try_catch
    (tenants ← processTenants authInput;
     let shouldAutoSwitch :=
       is_defined (tenants !! "default") && negb (truthy_id (activeTenantId state)) in
     Ok {| activeTenantId :=
             if shouldAutoSwitch then Some "default"%string else activeTenantId prev;
           tenants := tenants;
           isLoading := false |})
    (fun error =>
       Ok {| activeTenantId := activeTenantId prev;
             tenants := tenants prev;
             isLoading := false |}).

(** *** Typed inputs as values *)

Definition of_strings (l : list string) : JsVal := JArr (map JStr l).

Definition of_tenant_input (t : TenantAuthInput) : JsVal :=
  JObj (("tenantId"%string, JStr (tenantId t))
        :: match in_roles t with
           | Some rs => [("roles"%string, of_strings rs)]
           | None => []
           end
        ++ [("permissions"%string, of_strings (in_permissions t))]).

Definition of_input (authInput : AuthInput) : JsVal :=
  match authInput with
  | StringArray ps => of_strings ps
  | TenantArray ts => JArr (map of_tenant_input ts)
  end.

Definition of_record (r : TenantRecord) : RawTenant :=
  {| raw_roles := of_strings (roles r);
     raw_permissions := of_strings (permissions r);
     raw_map := perm_map r |}.

Definition of_state (s : RBACState TenantRecord) : RBACState RawTenant :=
  {| activeTenantId := activeTenantId s;
     tenants := of_record <$> tenants s;
     isLoading := isLoading s |}.

End Untyped.

(** ** The words of the specification about [checkAccess] (its section 4.2) *)

(** Role satisfaction: vacuous without requested roles; else the tenant holds
    the role ["*"] or one of the requested roles. *)
Definition role_satisfied (tenant : TenantRecord) (requested : option (list string))
    : Prop :=
  has_items requested = false \/
  In "*"%string (roles tenant) \/
  exists r, In r (items requested) /\ In r (roles tenant).

(** Permission satisfaction: vacuous without requested permissions; else the
    tenant holds ["*"], or every (with [requireAll]) or some (without)
    requested permission passes the matcher. *)
Definition permission_satisfied (tenant : TenantRecord)
    (requested : option (list string)) (requireAll : bool) : Prop :=
  has_items requested = false \/
  In "*"%string (permissions tenant) \/
  if requireAll
  then Forall (fun p => checkPermission (permissions tenant) p = true) (items requested)
  else Exists (fun p => checkPermission (permissions tenant) p = true) (items requested).

(** ** Counting invocations

    An action wrapped so that every invocation is counted, to tell a call
    that ran the action from one that did not. *)
Definition counting {World Args Return : Type} (action : Args -> Eff World Return)
    : Args -> Eff (nat * World) Return :=
  fun args nw =>
    match action args (snd nw) with
    | (r, w') => (r, (S (fst nw), w'))
    end.

(** ** The store after loading an empty array

    What [processTenants] builds from [[]]: the tenant ["default"] with
    nothing in it. *)
Definition empty_default : gmap string TenantRecord :=
  {[ "default" := {| roles := []; permissions := []; perm_map := ∅ |} ]}.

(** ** Data of the examples *)

(** A handler that returns [result] and leaves its name in a log. *)
Definition logging_handler (name : string) (result : nat) : Eff (list string) nat :=
  fun log => (Ok result, log ++ [name]).

(** [{ default: d, "a:view": h1, "b:view": h2 }]. *)
Definition example_handlers : list (string * Eff (list string) nat) :=
  [("default"%string, logging_handler "default" 0);
   ("a:view"%string, logging_handler "h1" 1);
   ("b:view"%string, logging_handler "h2" 2)].

(** An action that logs its argument. *)
Definition delete_project (id : string) : Eff (list string) string :=
  fun log => (Ok "Deleted!"%string, log ++ [id]).

(** The state after [setAuth(["x:view"])] and [switchTenant("toString")]: the
    active id names a method of [Object.prototype] and no tenant. *)
Definition prototype_state : RBACState TenantRecord :=
  current (run (mount false None)
             [CallSetAuth (StringArray ["x:view"%string]);
              CallSwitchTenant "toString"]).

(** The state after [setAuth(["b:view"])]: the tenant ["default"] is active
    and holds ["b:view"]. *)
Definition b_view_state : RBACState TenantRecord :=
  current (run (mount false None) [CallSetAuth (StringArray ["b:view"%string])]).

(** The state after mounting a provider and calling [setAuth(["billing:*"])]. *)
Definition billing_state : RBACState TenantRecord :=
  current (run (mount false None) [CallSetAuth (StringArray ["billing:*"%string])]).

(** ** The guard components of the factory: [Can] and [ProtectedRoute] *)

(** A prop typed [string | string[]], possibly absent: [role] and
    [permission] of both components. *)
Inductive OneOrMany : Type :=
  | Absent
  | One (s : string)
  | Many (l : list string).

(** [x ? (Array.isArray(x) ? x : [x]) : []]: an absent prop and the empty
    string are falsy, an array is truthy even when empty. *)
Definition to_array (x : OneOrMany) : list string :=
  match x with
  | Absent => []
  | One s => if truthy_string s then [s] else []
  | Many l => l
  end.

(** [x && x.length > 0] and the truthiness of [x?.length], for a value that
    is a string or an array: both have a [length]. *)
Definition raw_has_items (x : OneOrMany) : bool :=
  match x with
  | Absent => false
  | One s => truthy_string s
  | Many l => has_items (Some l)
  end.

(** [checkAccess] called with [roles] an array and, for
    [requirements.permissions], whatever the [permission] prop holds, as [Can]
    calls it behind the cast [permissions as string[]].  A string has a [length] but neither [every]
    nor [some]: calling them is a [TypeError]. *)
Definition checkAccess_raw (tenant : TenantRecord) (roles : list string)
    (permission : OneOrMany) (requireAll : bool) : Result bool :=
  let roleMatch :=
    roleMatch tenant {| req_roles := Some roles; req_permissions := None |} in
  permMatch ←
    (if raw_has_items permission then
       if includes (permissions tenant) "*" then Ok true
       else match permission with
            | Many l =>
                Ok (if requireAll
                    then forallb (fun p => checkPermission (permissions tenant) p) l
                    else existsb (fun p => checkPermission (permissions tenant) p) l)
            | _ => Throw TypeErrorObject
            end
     else Ok true);
  Ok (if has_items (Some roles) && raw_has_items permission
      then roleMatch && permMatch
      else if has_items (Some roles) then roleMatch
      else if raw_has_items permission then permMatch
      else true).

(** The same call on an inherited member of [Object.prototype]: no [roles],
    no [permissions]. *)
Definition checkAccess_raw_inherited (roles : list string) (permission : OneOrMany)
    : Result bool :=
  if has_items (Some roles) then Throw TypeErrorObject
  else if raw_has_items permission then Throw TypeErrorObject
  else Ok true.

(** The [hasAccess] of [Can]: [roles] is normalised, [permissions] is not. *)
Definition Can_hasAccess (mounted : bool) (state : RBACState TenantRecord)
    (permission role : OneOrMany) (requireAll : bool) : Result bool :=
  if negb mounted || isLoading state then Ok false
  else match active_entry state with
       | Missing => Ok false
       | Own tenant => checkAccess_raw tenant (to_array role) permission requireAll
       | Inherited => checkAccess_raw_inherited (to_array role) permission
       end.

(** What [Can] renders: [hasAccess ? children : fallback]. *)
Definition Can {Node : Type} (mounted : bool) (state : RBACState TenantRecord)
    (permission role : OneOrMany) (children fallback : Node) (requireAll : bool)
    : Result Node :=
  match Can_hasAccess mounted state permission role requireAll with
  | Ok hasAccess => Ok (if hasAccess then children else fallback)
  | Throw error => Throw error
  end.

(** The props of [ProtectedRoute]; an absent [fallback] or [loadingComponent]
    is [None]. *)
Record RouteProps (Node : Type) : Type := mkRoute {
  route_children : Node;
  route_permission : OneOrMany;
  route_role : OneOrMany;
  fallbackPath : string;
  route_fallback : option Node;
  route_requireAll : bool;
  loadingComponent : option Node;
  redirect : bool
}.
Arguments mkRoute {Node} _ _ _ _ _ _ _ _.
Arguments route_children {Node} _.
Arguments route_permission {Node} _.
Arguments route_role {Node} _.
Arguments fallbackPath {Node} _.
Arguments route_fallback {Node} _.
Arguments route_requireAll {Node} _.
Arguments loadingComponent {Node} _.
Arguments redirect {Node} _.

(** The [hasAccess] of [ProtectedRoute]: both props are normalised. *)
Definition route_hasAccess {Node : Type} (props : RouteProps Node) (mounted : bool)
    (state : RBACState TenantRecord) : Result bool :=
  let requirements :=
    {| req_roles := Some (to_array (route_role props));
       req_permissions := Some (to_array (route_permission props)) |} in
  if negb mounted || isLoading state then Ok false
  else match active_entry state with
       | Missing => Ok false
       | Own tenant => Ok (checkAccess tenant requirements (route_requireAll props))
       | Inherited => checkAccess_inherited requirements
       end.

(** What [ProtectedRoute] returns: the loading placeholder (the given
    [loadingComponent] or the built-in one), the denial (the given [fallback]
    or the built-in page), or the children. *)
Inductive View (Node : Type) : Type :=
  | LoadingView (custom : option Node)
  | DeniedView (custom : option Node)
  | ChildrenView (children : Node).
Arguments LoadingView {Node} _.
Arguments DeniedView {Node} _.
Arguments ChildrenView {Node} _.

(** The component's own state between renders: the two [useState] cells and
    the dependencies [mounted, state.isLoading, hasAccess] with which the
    redirect effect last ran (the other dependencies are props and the
    router, fixed here). *)
Record RouteLocal : Type := mkLocal {
  route_mounted : bool;
  shouldRedirect : bool;
  last_deps : option (bool * bool * bool)
}.

(** A component that has not rendered yet. *)
Definition route_start : RouteLocal :=
  {| route_mounted := false; shouldRedirect := false; last_deps := None |}.

Definition deps_changed (last : option (bool * bool * bool)) (deps : bool * bool * bool)
    : bool :=
  match last with
  | None => true
  | Some (m, l, h) =>
      negb (Bool.eqb m (fst (fst deps)) && Bool.eqb l (snd (fst deps))
            && Bool.eqb h (snd deps))
  end.

(** One render of [ProtectedRoute] against the store [state], followed by its
    effects: the view returned, the local state afterwards, and the path
    given to [router.replace] if the redirect effect fired.  When computing
    [hasAccess] throws, the render throws. *)
Definition route_render {Node : Type} (props : RouteProps Node) (local : RouteLocal)
    (state : RBACState TenantRecord)
    : Result (View Node * RouteLocal * option string) :=
  let mounted := route_mounted local in
  match route_hasAccess props mounted state with
  | Throw error => Throw error
  | Ok hasAccess =>
      let view :=
        if negb mounted || isLoading state then LoadingView (loadingComponent props)
        else if shouldRedirect local || negb hasAccess
        then DeniedView (route_fallback props)
        else ChildrenView (route_children props) in
      let deps := (mounted, isLoading state, hasAccess) in
      let fires :=
        deps_changed (last_deps local) deps
        && (redirect props && mounted && negb (isLoading state) && negb hasAccess) in
      Ok (view,
          {| route_mounted := true;
             shouldRedirect := shouldRedirect local || fires;
             last_deps := Some deps |},
          if fires then Some (fallbackPath props) else None)
  end.

(** The renders of a component over the successive states of the store: the
    view and the navigation of each render, up to a render that throws. *)
Fixpoint route_run {Node : Type} (props : RouteProps Node) (local : RouteLocal)
    (states : list (RBACState TenantRecord)) : list (View Node * option string) :=
  match states with
  | [] => []
  | state :: rest =>
      match route_render props local state with
      | Ok (view, local', navigation) =>
          (view, navigation) :: route_run props local' rest
      | Throw _ => []
      end
  end.

(** Did the computation of [hasAccess] return [false]? *)
Definition denies (hasAccess : Result bool) : bool :=
  match hasAccess with
  | Ok false => true
  | _ => false
  end.

(** Does a view show the protected children? *)
Definition shows_children {Node : Type} (v : View Node) : bool :=
  match v with
  | ChildrenView _ => true
  | _ => false
  end.

(** The number of renders that called [router.replace]. *)
Definition navigations {Node : Type} (renders : list (View Node * option string))
    : nat :=
  length (List.filter (fun o => is_defined (snd o)) renders).

(** ** Notions used to state properties of the store *)

(** The states a provider can be in: mounted, then any events. *)
Definition reachable (p : Provider) : Prop :=
  exists (d : bool) (initialData : option AuthInput) (events : list Event),
    p = run (mount d initialData) events.

(** The events in which the [debug] prop stays as it is. *)
Definition debug_unchanged (events : list Event) : Prop :=
  Forall (fun e => forall d, e <> RenderWithDebug d) events.

(** The last element of the array with the given [tenantId]. *)
Definition last_entry (id : string) (ts : list TenantAuthInput)
    : option TenantAuthInput :=
  find (fun t => String.eqb (tenantId t) id) (rev ts).

(** The handlers of a dispatcher, each wrapped to count its invocations. *)
Definition count_handlers {World Return : Type}
    (handlers : list (string * Eff World Return))
    : list (string * Eff (nat * World) Return) :=
  map (fun e => (fst e, counting (fun _ : unit => snd e) tt)) handlers.

(** * Properties *)

Local Open Scope string_scope.

(** ** Strings *)

Lemma includes_In (arr : list string) (x : string) :
  includes arr x = true <-> In x arr.
Proof.
  unfold includes. rewrite existsb_exists. split.
  - intros (y & Hin & Heq). apply String.eqb_eq in Heq. now subst.
  - intros Hin. exists x. split; [assumption | apply String.eqb_refl].
Qed.

Lemma includes_false (arr : list string) (x : string) :
  includes arr x = false <-> ~ In x arr.
Proof.
  rewrite <- includes_In. destruct (includes arr x); split; congruence.
Qed.

Lemma truthy_string_nonempty (s : string) :
  truthy_string s = true <-> s <> "".
Proof. destruct s; simpl; split; congruence. Qed.

(** The first piece of a split is what stands in front of the first
    separator. *)
Lemma split_head (sep : ascii) (s : string) :
  exists pieces, split sep s = before_first sep s :: pieces.
Proof.
  induction s as [| c rest [pieces IH]]; simpl.
  - now exists [].
  - destruct (Ascii.eqb c sep).
    + now exists (split sep rest).
    + rewrite IH. now exists pieces.
Qed.

Lemma before_first_absent (c : ascii) (s : string) :
  contains_char c s = false -> before_first c s = s.
Proof.
  induction s as [| d rest IH]; simpl; [reflexivity |].
  destruct (Ascii.eqb d c); simpl; [discriminate |].
  intros H. now rewrite IH.
Qed.

Lemma before_first_prefix (c : ascii) (r a : string) :
  contains_char c r = false -> before_first c (r +:+ String c a) = r.
Proof.
  induction r as [| d rest IH]; simpl.
  - now rewrite Ascii.eqb_refl.
  - destruct (Ascii.eqb d c); simpl; [discriminate |].
    intros H. now rewrite IH.
Qed.

Lemma resource_of_before_first (required : string) :
  resource_of required = before_first ":" required.
Proof.
  unfold resource_of. now destruct (split_head ":" required) as [pieces ->].
Qed.

(** A required permission ["r:a"] has resource ["r"]. *)
Lemma resource_of_prefix (r a : string) :
  contains_char ":" r = false -> resource_of (r +:+ ":" +:+ a) = r.
Proof. intros H. rewrite resource_of_before_first. now apply before_first_prefix. Qed.

(** A required permission without [":"] is its own resource. *)
Lemma resource_of_no_colon (required : string) :
  contains_char ":" required = false -> resource_of required = required.
Proof. intros H. rewrite resource_of_before_first. now apply before_first_absent. Qed.

(** ** The permission matcher *)

(** The three ways to pass the matcher, with the resource the code computes. *)
Lemma checkPermission_iff (held : list string) (required : string) :
  checkPermission held required = true <->
    In "*" held \/ In required held \/
    (resource_of required <> "" /\ In (resource_of required +:+ ":*") held).
Proof.
  rewrite resource_of_before_first. unfold checkPermission.
  destruct (split_head ":" required) as [pieces ->].
  destruct (includes held "*") eqn:Hstar.
  { apply includes_In in Hstar. tauto. }
  destruct (includes held required) eqn:Hexact.
  { apply includes_In in Hexact. tauto. }
  apply includes_false in Hstar, Hexact.
  destruct (truthy_string (before_first ":" required)) eqn:Htruthy; simpl.
  - apply truthy_string_nonempty in Htruthy.
    destruct (includes held (before_first ":" required +:+ ":*")) eqn:Hwild.
    + apply includes_In in Hwild. tauto.
    + apply includes_false in Hwild. split; [discriminate | tauto].
  - split; [discriminate |].
    intros [H | [H | [Hne _]]]; try contradiction.
    apply truthy_string_nonempty in Hne. congruence.
Qed.

Lemma checkPermission_nil (required : string) : checkPermission [] required = false.
Proof.
  unfold checkPermission. simpl.
  destruct (split ":" required) as [| resource pieces]; [reflexivity |].
  now rewrite andb_false_r.
Qed.

Lemma checkPermission_star (held : list string) (required : string) :
  In "*" held -> checkPermission held required = true.
Proof. intros H. apply checkPermission_iff. now left. Qed.

(** C1, as the code has it: the matcher accepts iff the held list contains
    ["*"], or the required string itself, or ["<resource>:*"] for the
    non-empty resource of the required string, where the resource is the part
    in front of the first [":"] and, when there is no [":"], the whole
    string; so a required string without [":"] is also accepted through
    ["<required>:*"]. *)
Theorem checkPermission_resource_wildcard (held : list string) (required : string) :
  (checkPermission held required = true <->
     In "*" held \/ In required held \/
     (resource_of required <> "" /\ In (resource_of required +:+ ":*") held))
  /\ resource_of required =
       (if contains_char ":" required then spec_resource required else required).
Proof.
  split; [apply checkPermission_iff |].
  unfold spec_resource.
  destruct (contains_char ":" required) eqn:H.
  - apply resource_of_before_first.
  - now apply resource_of_no_colon.
Qed.

(** The claim C1 fails at held [["billing:*"]], required ["billing"]: the
    required string has no [":"], the held list has neither ["*"] nor
    ["billing"], the specification's matcher rejects, and the code accepts. *)
Lemma checkPermission_no_colon_counterexample :
  contains_char ":" "billing" = false /\
  ~ In "*" ["billing:*"] /\
  ~ In "billing" ["billing:*"] /\
  ~ spec_matches ["billing:*"] "billing" /\
  checkPermission ["billing:*"] "billing" = true.
Proof.
  split; [reflexivity |].
  assert (H1 : ~ In "*" ["billing:*"]) by (simpl; intros [H | []]; discriminate).
  assert (H2 : ~ In "billing" ["billing:*"]) by (simpl; intros [H | []]; discriminate).
  repeat split; try assumption.
  intros [H | [H | [H _]]]; [now apply H1 | now apply H2 | now apply H].
Qed.

(** ** The access combinator *)

Lemma has_items_nonempty (l : list string) : has_items (Some l) = true <-> l <> [].
Proof. destruct l; simpl; split; congruence. Qed.

Lemma roleMatch_spec (tenant : TenantRecord) (requirements : Requirements) :
  roleMatch tenant requirements = true <->
  role_satisfied tenant (req_roles requirements).
Proof.
  unfold roleMatch, role_satisfied.
  destruct (has_items (req_roles requirements)) eqn:Hitems; [| tauto].
  destruct (includes (roles tenant) "*") eqn:Hstar.
  - apply includes_In in Hstar. tauto.
  - apply includes_false in Hstar. rewrite existsb_exists. split.
    + intros (r & Hin & Hinc). apply includes_In in Hinc. eauto.
    + intros [H | [H | (r & Hin & Hinc)]]; [discriminate | contradiction |].
      exists r. split; [assumption | now apply includes_In].
Qed.

Lemma permMatch_spec (tenant : TenantRecord) (requirements : Requirements)
    (requireAll : bool) :
  permMatch tenant requirements requireAll = true <->
  permission_satisfied tenant (req_permissions requirements) requireAll.
Proof.
  unfold permMatch, permission_satisfied.
  destruct (has_items (req_permissions requirements)) eqn:Hitems; [| tauto].
  destruct (includes (permissions tenant) "*") eqn:Hstar.
  - apply includes_In in Hstar. tauto.
  - apply includes_false in Hstar. destruct requireAll.
    + rewrite forallb_forall, List.Forall_forall.
      split; [tauto |]. intros [H | [H | H]]; [discriminate | contradiction | exact H].
    + rewrite existsb_exists, List.Exists_exists.
      split; [tauto |]. intros [H | [H | H]]; [discriminate | contradiction | exact H].
Qed.

(** With ["*"] among its permissions a tenant passes the matcher for every
    requested permission, so the shortcut of [permMatch] is subsumed by the
    matcher as soon as something is requested. *)
Lemma permission_satisfied_nonempty (tenant : TenantRecord) (ps : list string)
    (requireAll : bool) :
  ps <> [] ->
  permission_satisfied tenant (Some ps) requireAll <->
  if requireAll
  then Forall (fun p => checkPermission (permissions tenant) p = true) ps
  else Exists (fun p => checkPermission (permissions tenant) p = true) ps.
Proof.
  intros Hne. unfold permission_satisfied. simpl items.
  split.
  - intros [H | [H | H]]; [| | exact H].
    + apply has_items_nonempty in Hne. congruence.
    + destruct requireAll.
      * apply Forall_forall. intros p _. now apply checkPermission_star.
      * destruct ps as [| p ps']; [congruence |].
        apply Exists_cons_hd. now apply checkPermission_star.
  - intros H. right; right. exact H.
Qed.

Lemma role_satisfied_nonempty (tenant : TenantRecord) (rs : list string) :
  rs <> [] ->
  role_satisfied tenant (Some rs) <->
  In "*" (roles tenant) \/ exists r, In r rs /\ In r (roles tenant).
Proof.
  intros Hne. unfold role_satisfied. simpl items.
  apply has_items_nonempty in Hne. split; [| tauto].
  intros [H | H]; [congruence | exact H].
Qed.

(** C2: with both categories requested the decision is role satisfaction and
    permission satisfaction, whatever [requireAll]; with one category
    requested it is that category's satisfaction; with nothing requested it
    is true. *)
Theorem checkAccess_combination (tenant : TenantRecord) (requirements : Requirements)
    (requireAll : bool) :
  checkAccess tenant requirements requireAll = true <->
    if has_items (req_roles requirements) && has_items (req_permissions requirements)
    then role_satisfied tenant (req_roles requirements) /\
         permission_satisfied tenant (req_permissions requirements) requireAll
    else if has_items (req_roles requirements)
    then role_satisfied tenant (req_roles requirements)
    else if has_items (req_permissions requirements)
    then permission_satisfied tenant (req_permissions requirements) requireAll
    else True.
Proof.
  unfold checkAccess.
  destruct (has_items (req_roles requirements)),
           (has_items (req_permissions requirements)); simpl.
  - rewrite andb_true_iff, roleMatch_spec, permMatch_spec. reflexivity.
  - apply roleMatch_spec.
  - apply permMatch_spec.
  - tauto.
Qed.

(** The example of the specification: the role alone passes, the permission
    does not, and the decision is a denial. *)
Example checkAccess_strict_and :
  checkAccess {| roles := ["admin"]; permissions := ["a:view"];
                 perm_map := build_map ["a:view"] |}
              {| req_roles := Some ["admin"]; req_permissions := Some ["b:view"] |}
              false = false.
Proof. reflexivity. Qed.

(** C3: for non-empty request lists, roles are always a disjunction (the
    tenant has ["*"] or one of the requested roles) and [requireAll] does not
    change a decision on roles; permissions are a conjunction of matcher
    results with [requireAll] and a disjunction without. *)
Theorem checkAccess_any_role_all_or_any_permission (tenant : TenantRecord)
    (rs ps : list string) (requireAll : bool) :
  rs <> [] -> ps <> [] ->
  let role_ok := In "*" (roles tenant) \/ exists r, In r rs /\ In r (roles tenant) in
  let passes := fun p => checkPermission (permissions tenant) p = true in
  (checkAccess tenant {| req_roles := Some rs; req_permissions := None |} requireAll
     = true <-> role_ok)
  /\ checkAccess tenant {| req_roles := Some rs; req_permissions := None |} true
     = checkAccess tenant {| req_roles := Some rs; req_permissions := None |} false
  /\ (checkAccess tenant {| req_roles := None; req_permissions := Some ps |} true
        = true <-> Forall passes ps)
  /\ (checkAccess tenant {| req_roles := None; req_permissions := Some ps |} false
        = true <-> Exists passes ps)
  /\ (checkAccess tenant {| req_roles := Some rs; req_permissions := Some ps |} requireAll
        = true <->
      role_ok /\ if requireAll then Forall passes ps else Exists passes ps).
Proof.
  intros Hrs Hps role_ok passes.
  pose proof (proj2 (has_items_nonempty rs) Hrs) as Hr.
  pose proof (proj2 (has_items_nonempty ps) Hps) as Hp.
  pose proof (role_satisfied_nonempty tenant rs Hrs) as Hrole.
  pose proof (fun b => permission_satisfied_nonempty tenant ps b Hps) as Hperm.
  unfold checkAccess. cbn [req_roles req_permissions].
  rewrite Hr, Hp. cbn [has_items andb].
  split; [| split; [| split; [| split]]].
  - rewrite roleMatch_spec. exact Hrole.
  - reflexivity.
  - rewrite permMatch_spec. exact (Hperm true).
  - rewrite permMatch_spec. exact (Hperm false).
  - rewrite andb_true_iff, roleMatch_spec, permMatch_spec.
    cbn [req_roles req_permissions]. rewrite Hrole, (Hperm requireAll). reflexivity.
Qed.

Lemma checkAccess_any_role_all_or_any_permission_witness :
  ["admin"] <> [] /\ ["a:view"; "a:edit"] <> [] /\
  checkAccess {| roles := []; permissions := ["a:view"]; perm_map := build_map ["a:view"] |}
              {| req_roles := None; req_permissions := Some ["a:view"; "a:edit"] |}
              false = true.
Proof.
  assert (Hrs : ["admin"] <> []) by discriminate.
  assert (Hps : ["a:view"; "a:edit"] <> []) by discriminate.
  split; [exact Hrs |]. split; [exact Hps |].
  apply (proj1 (proj2 (proj2 (proj2
    (checkAccess_any_role_all_or_any_permission
       {| roles := []; permissions := ["a:view"]; perm_map := build_map ["a:view"] |}
       ["admin"] ["a:view"; "a:edit"] false Hrs Hps))))).
  apply Exists_cons_hd. reflexivity.
Defined.

(** ** The store *)

(** The invariant of the tenant record: [map] holds exactly the permissions. *)
Lemma build_map_lookup (ps : list string) (p : string) :
  build_map ps !! p = if includes ps p then Some true else None.
Proof.
  unfold build_map.
  assert (Hgen : forall (acc : gmap string bool),
             fold_left (fun pMap q => <[q := true]> pMap) ps acc !! p =
             if includes ps p then Some true else acc !! p).
  { induction ps as [| q rest IH]; intros acc; simpl; [reflexivity |].
    rewrite IH. destruct (includes rest p); [now rewrite orb_true_r |].
    rewrite orb_false_r.
    destruct (String.eqb p q) eqn:Heq.
    - apply String.eqb_eq in Heq. subst. apply lookup_insert_eq.
    - apply String.eqb_neq in Heq. apply lookup_insert_ne. congruence. }
  rewrite Hgen. now rewrite lookup_empty.
Qed.

Lemma map_has_record_of (curr : TenantAuthInput) (p : string) :
  map_has (record_of curr) p = includes (in_permissions curr) p || proto_member p.
Proof.
  unfold map_has, plain_get, record_of. cbn [perm_map].
  rewrite build_map_lookup.
  now destruct (includes (in_permissions curr) p), (proto_member p).
Qed.

Lemma processTenants_empty (authInput : AuthInput) :
  input_length authInput = 0 -> processTenants authInput = empty_default.
Proof.
  destruct authInput as [[| p ps] | [| t ts]]; simpl; intros H;
    try discriminate; reflexivity.
Qed.

(** C4, as the code has it: an empty array takes the branch of the flat list
    of strings, and the normalised result is one tenant, ["default"], with no
    roles, no permissions and an empty map; this is what [tenants] holds
    after the load. *)
Theorem processTenants_empty_array (authInput : AuthInput)
    (state prev : RBACState TenantRecord) :
  input_length authInput = 0 ->
  (input_length authInput =? 0)%nat || first_is_string authInput = true
  /\ processTenants authInput = processTenants (StringArray [])
  /\ processTenants authInput = empty_default
  /\ tenants (setAuth state authInput prev) = empty_default
  /\ size (tenants (setAuth state authInput prev)) = 1
  /\ Untyped.processTenants (Untyped.of_input authInput) =
       Ok {[ "default" := {| Untyped.raw_roles := Untyped.JArr [];
                             Untyped.raw_permissions := Untyped.JArr [];
                             Untyped.raw_map := ∅ |} ]}.
Proof.
  intros Hlen. split; [now rewrite Hlen |].
  pose proof (processTenants_empty authInput Hlen) as Hnorm.
  repeat split.
  - now rewrite Hnorm.
  - exact Hnorm.
  - unfold setAuth. simpl. exact Hnorm.
  - unfold setAuth. simpl. rewrite Hnorm. apply map_size_singleton.
  - destruct authInput as [[| p ps] | [| t ts]]; simpl in Hlen;
      try discriminate; reflexivity.
Qed.

Lemma processTenants_empty_array_witness :
  input_length (StringArray []) = 0 /\
  size (tenants (setAuth empty_state (StringArray []) empty_state)) = 1.
Proof.
  split; [reflexivity |].
  apply (processTenants_empty_array (StringArray []) empty_state empty_state eq_refl).
Defined.

(** The claim C4 fails at the empty array: after the load [tenants] is not
    empty, it has the key ["default"]. *)
Lemma setAuth_empty_array_counterexample :
  input_length (StringArray []) = 0 /\
  tenants (setAuth empty_state (StringArray []) empty_state) <> ∅ /\
  is_defined (tenants (setAuth empty_state (StringArray []) empty_state) !! "default")
    = true.
Proof.
  split; [reflexivity |]. split; [| reflexivity].
  intros H. apply (f_equal (fun m => m !! "default")) in H.
  rewrite lookup_empty in H. discriminate H.
Qed.

(** *** The active tenant across loads *)

(** What [setAuth] does to the active tenant: the test for "no tenant is
    active" reads the state the callback closed over, not [prev]. *)
Lemma setAuth_activeTenantId (state prev : RBACState TenantRecord)
    (authInput : AuthInput) :
  activeTenantId (setAuth state authInput prev) =
    if is_defined (processTenants authInput !! "default")
       && negb (truthy_id (activeTenantId state))
    then Some "default" else activeTenantId prev.
Proof. reflexivity. Qed.

(** Were the callback to read the current state, it would activate
    ["default"] exactly when the load has a ["default"] tenant and no tenant
    is active, and keep the active tenant otherwise. *)
Lemma setAuth_fresh_state (prev : RBACState TenantRecord) (authInput : AuthInput) :
  activeTenantId (setAuth prev authInput prev) =
    if is_defined (processTenants authInput !! "default")
    then (if truthy_id (activeTenantId prev) then activeTenantId prev else Some "default")
    else activeTenantId prev.
Proof.
  rewrite setAuth_activeTenantId.
  destruct (is_defined (processTenants authInput !! "default")),
           (truthy_id (activeTenantId prev)); reflexivity.
Qed.

(** Calls of the three store operations leave the closed-over state alone. *)
Lemma handle_closed_over (p : Provider) (e : Event) :
  (forall d, e <> RenderWithDebug d) -> closed_over (handle p e) = closed_over p.
Proof.
  destruct e as [a | id | | d]; simpl; try reflexivity.
  intros H. now destruct (H d).
Qed.

Lemma run_closed_over (events : list Event) (p : Provider) :
  Forall (fun e => forall d, e <> RenderWithDebug d) events ->
  closed_over (run p events) = closed_over p.
Proof.
  unfold run. revert p.
  induction events as [| e rest IH]; intros p Hall; simpl; [reflexivity |].
  inversion Hall as [| e' rest' He Hrest]; subst.
  rewrite IH by assumption. now apply handle_closed_over.
Qed.

(** The two examples of the specification, from a provider mounted without
    initial data. *)
Example load_strings_activates_default :
  useHasPermission true
    (current (run (mount false None) [CallSetAuth (StringArray ["x:view"])]))
    "x:view" = Ok true.
Proof. reflexivity. Qed.

Example load_tenant_t1_activates_nothing :
  let st := current (run (mount false None)
              [CallSetAuth (TenantArray
                 [{| tenantId := "t1"; in_roles := None; in_permissions := ["x:view"] |}])]) in
  activeTenantId st = None /\ useHasPermission true st "x:view" = Ok false.
Proof. split; reflexivity. Qed.

(** C5 on the code: the provider is mounted without initial data, the tenant
    ["t1"] is selected, and a flat list is loaded.  A tenant is active at the
    time of the load, yet the active tenant becomes ["default"]: the callback
    tests the state of the render it was created in.  Conversely, after a
    hydrated mount and a [reset] no tenant is active, the load has a
    ["default"] tenant, and nothing is activated. *)
Theorem setAuth_reads_stale_state :
  (let p := run (mount false None) [CallSwitchTenant "t1"] in
   activeTenantId (current p) = Some "t1" /\
   activeTenantId (current (handle p (CallSetAuth (StringArray ["x:view"]))))
     = Some "default")
  /\
  (let q := run (mount false (Some (StringArray ["x:view"]))) [CallReset] in
   let q' := handle q (CallSetAuth (StringArray ["x:view"])) in
   activeTenantId (current q) = None /\
   is_defined (processTenants (StringArray ["x:view"]) !! "default") = true /\
   activeTenantId (current q') = None /\
   useHasPermission true (current q') "x:view" = Ok false).
Proof. repeat split; reflexivity. Qed.

(** ** The hooks before the store is ready *)

Lemma active_tenant_none {T : Type} (state : RBACState T) :
  activeTenantId state = None \/
  (exists id, activeTenantId state = Some id /\ tenants state !! id = None) ->
  active_tenant state = None.
Proof.
  unfold active_tenant. intros [-> | (id & -> & Hnone)]; [reflexivity |].
  rewrite Hnone. now destruct (truthy_string id).
Qed.

(** The active record is the entry found when that entry is an own one. *)
Lemma active_entry_own {T : Type} (state : RBACState T) (t : T) :
  active_entry state = Own t <-> active_tenant state = Some t.
Proof.
  unfold active_entry, active_tenant, plain_get.
  destruct (activeTenantId state) as [id |]; [| split; discriminate].
  destruct (truthy_string id); [| split; discriminate].
  destruct (tenants state !! id) as [r |].
  - split; intros [= ->]; reflexivity.
  - destruct (proto_member id); split; discriminate.
Qed.

(** Without an active id, or with an active id that names neither a tenant
    nor a member of [Object.prototype], nothing is found. *)
Lemma active_entry_missing {T : Type} (state : RBACState T) :
  activeTenantId state = None \/
  (exists id, activeTenantId state = Some id /\ tenants state !! id = None
              /\ proto_member id = false) ->
  active_entry state = Missing.
Proof.
  unfold active_entry, plain_get.
  intros [-> | (id & -> & Hnone & Hproto)]; [reflexivity |].
  rewrite Hnone, Hproto. now destruct (truthy_string id).
Qed.

(** An active id that names a member of [Object.prototype] and no tenant
    finds that member. *)
Lemma active_entry_inherited {T : Type} (state : RBACState T) (id : string) :
  activeTenantId state = Some id -> tenants state !! id = None ->
  proto_member id = true ->
  active_entry state = Inherited.
Proof.
  intros Hid Hnone Hproto. unfold active_entry, plain_get.
  rewrite Hid, Hnone, Hproto.
  destruct id; [discriminate Hproto | reflexivity].
Qed.

(** C6 on the code: the store is loaded, ["toString"] is selected, and no
    tenant has that id.  The active tenant is absent from [tenants], yet the
    guard [!state.tenants[state.activeTenantId]] finds the inherited method
    [toString] and lets the hooks through: the four checks and a requirement
    check with a role throw a [TypeError] instead of answering false (only
    the empty requirement is answered, with true).  With an absent id that
    names no member of [Object.prototype] the same hooks answer false. *)
Theorem hooks_throw_at_inherited_tenant :
  isLoading prototype_state = false
  /\ activeTenantId prototype_state = Some "toString"
  /\ tenants prototype_state !! "toString" = None
  /\ useHasRole true prototype_state "admin" = Throw TypeErrorObject
  /\ useHasPermission true prototype_state "x:view" = Throw TypeErrorObject
  /\ useHasAnyPermission true prototype_state ["x:view"] = Throw TypeErrorObject
  /\ useHasAllPermissions true prototype_state ["x:view"] = Throw TypeErrorObject
  /\ useAccess true prototype_state
       {| req_roles := Some ["admin"]; req_permissions := None |}
     = Throw TypeErrorObject
  /\ useAccess true prototype_state {| req_roles := None; req_permissions := None |}
     = Ok true
  /\ useHasRole true (switchTenant "t9" prototype_state) "admin" = Ok false.
Proof. repeat split; reflexivity. Qed.

(** ** Loading arbitrary values *)

(** Inputs on which [processTenants] throws: a value that is not an array,
    an array with a number or [null] in front, a tenant without
    [permissions], a tenant whose [permissions] is a string. *)
Example processTenants_throws :
  Untyped.processTenants Untyped.JNull = Throw TypeErrorObject /\
  Untyped.processTenants (Untyped.JObj [("permissions", Untyped.JArr [])])
    = Throw TypeErrorObject /\
  Untyped.processTenants (Untyped.JArr [Untyped.JNum "42" true]) = Throw TypeErrorObject /\
  Untyped.processTenants (Untyped.JArr [Untyped.JNull]) = Throw TypeErrorObject /\
  Untyped.processTenants
    (Untyped.JArr [Untyped.JObj [("tenantId", Untyped.JStr "t1")]])
    = Throw TypeErrorObject /\
  Untyped.processTenants
    (Untyped.JArr [Untyped.JObj [("tenantId", Untyped.JStr "t1");
                                 ("permissions", Untyped.JStr "x:view")]])
    = Throw TypeErrorObject.
Proof. repeat split; reflexivity. Qed.

(** On the values of the declared type the untyped store is the typed one. *)
Lemma reduce_build_map (ps : list string) (acc : gmap string bool) :
  Untyped.reduce
    (fun pMap p => k ← Untyped.toPropertyKey p; Ok (<[k := true]> pMap))
    (map Untyped.JStr ps) acc
  = Ok (fold_left (fun pMap p => <[p := true]> pMap) ps acc).
Proof.
  revert acc. induction ps as [| p rest IH]; intros acc; simpl; [reflexivity |].
  apply IH.
Qed.

Lemma add_tenant_typed (acc : gmap string Untyped.RawTenant) (t : TenantAuthInput) :
  Untyped.add_tenant acc (Untyped.of_tenant_input t)
  = Ok (<[tenantId t := Untyped.of_record (record_of t)]> acc).
Proof.
  unfold Untyped.add_tenant, Untyped.of_tenant_input, Untyped.of_record, record_of.
  destruct t as [id [rs |] ps]; simpl;
    rewrite reduce_build_map; reflexivity.
Qed.

Lemma reduce_add_tenant_typed (ts : list TenantAuthInput)
    (acc : gmap string TenantRecord) :
  Untyped.reduce Untyped.add_tenant (map Untyped.of_tenant_input ts)
    (Untyped.of_record <$> acc)
  = Ok (Untyped.of_record <$>
        fold_left (fun acc curr => <[tenantId curr := record_of curr]> acc) ts acc).
Proof.
  revert acc. induction ts as [| t rest IH]; intros acc; simpl; [reflexivity |].
  rewrite add_tenant_typed. simpl.
  rewrite <- fmap_insert. apply IH.
Qed.

Lemma processTenants_typed (authInput : AuthInput) :
  Untyped.processTenants (Untyped.of_input authInput)
  = Ok (Untyped.of_record <$> processTenants authInput).
Proof.
  destruct authInput as [ps | ts].
  - assert (Hflat : (length (map Untyped.JStr ps) =? 0)%nat
                    || Untyped.first_is_string (map Untyped.JStr ps) = true)
      by (now destruct ps).
    unfold Untyped.processTenants, Untyped.of_input, Untyped.of_strings.
    rewrite Hflat.
    assert (Htyped : processTenants (StringArray ps) =
              <["default" := record_of {| tenantId := "default"; in_roles := None;
                                          in_permissions := ps |}]> ∅)
      by (unfold processTenants; now destruct ps).
    rewrite Htyped, fmap_insert, fmap_empty.
    unfold Untyped.reduce_of, Untyped.reduce.
    pose proof (add_tenant_typed ∅ {| tenantId := "default"; in_roles := None;
                                      in_permissions := ps |}) as Hadd.
    unfold Untyped.of_tenant_input, Untyped.of_strings in Hadd. simpl in Hadd.
    simpl. rewrite Hadd. reflexivity.
  - destruct ts as [| t rest]; [reflexivity |].
    unfold Untyped.processTenants, Untyped.of_input, processTenants.
    cbn [map length Nat.eqb orb Untyped.first_is_string Untyped.of_tenant_input
         input_length first_is_string as_tenants Untyped.reduce_of].
    pose proof (reduce_add_tenant_typed (t :: rest) ∅) as Hred.
    rewrite fmap_empty in Hred. exact Hred.
Qed.

Lemma setAuth_typed (state prev : RBACState TenantRecord) (authInput : AuthInput) :
  Untyped.setAuth (Untyped.of_state state) (Untyped.of_input authInput)
    (Untyped.of_state prev)
  = Ok (Untyped.of_state (setAuth state authInput prev)).
Proof.
  unfold Untyped.setAuth, try_catch. rewrite processTenants_typed. simpl.
  unfold Untyped.of_state, setAuth. simpl.
  rewrite lookup_fmap.
  now destruct (processTenants authInput !! "default").
Qed.

(** C7: whatever value [setAuth] is given, it returns; [isLoading] is false
    afterwards; and when [processTenants] throws, the tenants (and the active
    tenant) are those of before the call. *)
Theorem setAuth_never_throws (state prev : RBACState Untyped.RawTenant)
    (authInput : Untyped.JsVal) :
  exists after,
    Untyped.setAuth state authInput prev = Ok after
    /\ isLoading after = false
    /\ match Untyped.processTenants authInput with
       | Throw _ =>
           tenants after = tenants prev /\ activeTenantId after = activeTenantId prev
       | Ok normalised => tenants after = normalised
       end.
Proof.
  unfold Untyped.setAuth, try_catch.
  destruct (Untyped.processTenants authInput) as [normalised | error]; simpl;
    eexists; repeat split; reflexivity.
Qed.

(** ** The action guard *)

Lemma denied_message_names_permission (required : string) :
  occurs_in required (denied_message required).
Proof.
  exists "[RBAC Shield] Access Denied: Missing permission '", "'". reflexivity.
Qed.

(** C8: when the matcher rejects, the guarded call fails with the error whose
    message names the required permission, and the action is not invoked (the
    world is untouched and the count of invocations unchanged); when the
    matcher accepts, the guarded call is the call of the action on the same
    arguments, invoked once, with its result or failure as the outcome. *)
Theorem guard_denies_or_delegates {World Args Return : Type}
    (held : list string) (required : string) (action : Args -> Eff World Return)
    (args : Args) (w : World) (n : nat) :
  (checkPermission held required = false ->
     guard held required action args w
       = (Throw (ErrorObject (denied_message required)), w)
     /\ occurs_in required (denied_message required)
     /\ guard held required (counting action) args (n, w)
       = (Throw (ErrorObject (denied_message required)), (n, w)))
  /\
  (checkPermission held required = true ->
     guard held required action args w = action args w
     /\ guard held required (counting action) args (n, w)
       = (fst (action args w), (S n, snd (action args w)))).
Proof.
  unfold guard. split; intros ->; simpl.
  - repeat split. apply denied_message_names_permission.
  - split; [reflexivity |]. unfold counting. simpl. now destruct (action args w).
Qed.

Lemma guard_denies_or_delegates_witness :
  (checkPermission ["a:view"] "a:delete" = false /\
   guard ["a:view"] "a:delete" delete_project "p1" []
   = (Throw (ErrorObject "[RBAC Shield] Access Denied: Missing permission 'a:delete'"),
      []))
  /\
  (checkPermission ["a:delete"] "a:delete" = true /\
   guard ["a:delete"] "a:delete" delete_project "p1" [] = (Ok "Deleted!", ["p1"])).
Proof.
  split; (split; [reflexivity |]).
  - apply (proj1 (guard_denies_or_delegates ["a:view"] "a:delete" delete_project
                    "p1" [] 0) eq_refl).
  - apply (proj2 (guard_denies_or_delegates ["a:delete"] "a:delete" delete_project
                    "p1" [] 0) eq_refl).
Defined.

(** ** The dispatcher *)

Lemma match_loop_skip {World Return : Type} (held : list string)
    (before rest : list (string * Eff World Return))
    (fallback : Eff World (option Return)) :
  Forall (fun e => fst e = "default" \/ checkPermission held (fst e) = false) before ->
  match_loop held (before ++ rest) fallback = match_loop held rest fallback.
Proof.
  induction before as [| [k h] before' IH]; intros Hall; simpl; [reflexivity |].
  inversion Hall as [| e l Hhead Htail]; subst. simpl in Hhead.
  destruct (String.eqb k "default") eqn:Hk; [now apply IH |].
  destruct Hhead as [Hdef | Hrej].
  - apply String.eqb_neq in Hk. contradiction.
  - rewrite Hrej. now apply IH.
Qed.

Lemma match_loop_no_permissions {World Return : Type}
    (entries : list (string * Eff World Return))
    (fallback : Eff World (option Return)) :
  match_loop [] entries fallback = fallback.
Proof.
  rewrite <- (app_nil_r entries). rewrite match_loop_skip; [reflexivity |].
  apply List.Forall_forall. intros e _. right. apply checkPermission_nil.
Qed.

(** The loop either stops at a first accepted key or runs to its end. *)
Lemma first_match_or_none {World Return : Type} (held : list string)
    (entries : list (string * Eff World Return)) :
  (exists key handler, first_match held entries key handler) \/ no_match held entries.
Proof.
  unfold first_match, no_match.
  induction entries as [| [k h] rest IH].
  - right. constructor.
  - destruct (String.eqb k "default") eqn:Hk.
    + apply String.eqb_eq in Hk. subst k.
      destruct IH as [(key & handler & before & after & -> & Hne & Hacc & Hall) | Hnone].
      * left. exists key, handler, (("default", h) :: before), after.
        repeat split; try assumption. constructor; [now left | assumption].
      * right. constructor; [now left | assumption].
    + apply String.eqb_neq in Hk.
      destruct (checkPermission held k) eqn:Hacc.
      * left. exists k, h, [], rest. repeat split; try assumption. constructor.
      * destruct IH as [(key & handler & before & after & -> & Hne & Hacc' & Hall) | Hnone].
        -- left. exists key, handler, ((k, h) :: before), after.
           repeat split; try assumption. constructor; [now right | assumption].
        -- right. constructor; [now right | assumption].
Qed.

(** The dispatcher modelled from the specification is the [match] of
    guards.ts. *)
Lemma find_is_match_loop {World Return : Type} (held : list string)
    (entries : list (string * Eff World Return))
    (fallback : Eff World (option Return)) :
  match List.find (fun e => negb (String.eqb (fst e) "default")
                            && checkPermission held (fst e)) entries with
  | Some e => bind (snd e) (fun r => ret (Some r))
  | None => fallback
  end = match_loop held entries fallback.
Proof.
  induction entries as [| [k h] rest IH]; simpl; [reflexivity |].
  destruct (String.eqb k "default"); simpl; [exact IH |].
  destruct (checkPermission held k); [reflexivity | exact IH].
Qed.

Lemma matchPermission_is_match {World Return : Type} (held : list string)
    (handlers : list (string * Eff World Return)) :
  matchPermission held handlers = match_ held handlers.
Proof. apply find_is_match_loop. Qed.

(** C9, as the code has it: [match] runs the handler of the first key, in the
    order of the entries and leaving ["default"] out, that the matcher
    accepts for the held permissions, and returns its result; when there is
    no such key it runs the ["default"] handler if there is one and returns
    [undefined] if not; one of the two cases always applies.  The hook does
    the same against the permissions of the active tenant once it is mounted
    and the active id is a key of [tenants]; while it is not mounted, or no
    tenant is active, or the active id is not a key of [tenants], it runs no
    handler of a key: it runs the ["default"] handler if there is one and
    returns [undefined] if not. *)
Theorem match_first_match_wins {World Return : Type} (held : list string)
    (handlers : list (string * Eff World Return))
    (state : RBACState TenantRecord) (id : string) (tenant : TenantRecord) :
  (forall key handler,
     first_match held handlers key handler ->
     match_ held handlers = bind handler (fun r => ret (Some r)))
  /\ (no_match held handlers ->
      match_ held handlers =
        match property "default" handlers with
        | Some handler => bind handler (fun r => ret (Some r))
        | None => ret None
        end)
  /\ ((exists key handler, first_match held handlers key handler)
      \/ no_match held handlers)
  /\ matchPermission held handlers = match_ held handlers
  /\ (activeTenantId state = Some id -> id <> "" ->
      tenants state !! id = Some tenant ->
      usePermissionMatch true state handlers = match_ (permissions tenant) handlers)
  /\ (forall mounted,
        mounted = false \/ activeTenantId state = None \/
        activeTenantId state = Some "" \/
        (activeTenantId state = Some id /\ tenants state !! id = None) ->
        usePermissionMatch mounted state handlers =
          match property "default" handlers with
          | Some handler => bind handler (fun r => ret (Some r))
          | None => ret None
          end).
Proof.
  split; [| split; [| split; [| split; [| split]]]].
  - intros key handler (before & after & -> & Hne & Hacc & Hall).
    unfold match_. rewrite match_loop_skip by assumption. simpl.
    apply String.eqb_neq in Hne. now rewrite Hne, Hacc.
  - intros Hnone. unfold match_.
    rewrite <- (app_nil_r handlers) at 1.
    rewrite match_loop_skip by assumption. reflexivity.
  - apply first_match_or_none.
  - apply matchPermission_is_match.
  - intros Hid Hne Hown. apply truthy_string_nonempty in Hne.
    unfold usePermissionMatch, active_entry, plain_get.
    rewrite Hid, Hne, Hown. apply matchPermission_is_match.
  - intros mounted Hcase. unfold usePermissionMatch.
    destruct mounted; cbn [negb]; [| reflexivity].
    destruct Hcase as [Hm | Hcase]; [discriminate |].
    unfold active_entry, plain_get.
    destruct Hcase as [-> | [-> | [-> Hnone]]]; try reflexivity.
    destruct (truthy_string id); [| reflexivity]. rewrite Hnone.
    destruct (proto_member id); [| reflexivity].
    rewrite matchPermission_is_match. unfold match_.
    apply match_loop_no_permissions.
Qed.

Lemma match_first_match_wins_witness :
  match_ ["b:view"] example_handlers [] = (Ok (Some 2), ["h2"])
  /\ match_ ["c:view"] example_handlers [] = (Ok (Some 0), ["default"])
  /\ usePermissionMatch true b_view_state example_handlers []
     = (Ok (Some 2), ["h2"])
  /\ usePermissionMatch true (switchTenant "t9" b_view_state) example_handlers []
     = (Ok (Some 0), ["default"]).
Proof.
  pose proof (match_first_match_wins ["b:view"] example_handlers b_view_state "default"
                {| roles := []; permissions := ["b:view"];
                   perm_map := build_map ["b:view"] |})
    as (Hfirst & _ & _ & _ & Hhook & _).
  pose proof (match_first_match_wins ["c:view"] example_handlers
                (switchTenant "t9" b_view_state) "t9"
                {| roles := []; permissions := []; perm_map := ∅ |})
    as (_ & Hnone & _ & _ & _ & Hunready).
  assert (Hmatch : match_ ["b:view"] example_handlers [] = (Ok (Some 2), ["h2"])).
  { rewrite (Hfirst "b:view" (logging_handler "h2" 2)); [reflexivity |].
    exists [("default", logging_handler "default" 0); ("a:view", logging_handler "h1" 1)], [].
    split; [reflexivity |]. split; [discriminate |]. split; [reflexivity |].
    constructor; [now left |]. constructor; [now right | constructor]. }
  split; [exact Hmatch |]. split; [| split].
  - rewrite Hnone; [reflexivity |].
    constructor; [now left |].
    constructor; [now right |]. constructor; [now right | constructor].
  - rewrite Hhook; [exact Hmatch | reflexivity | discriminate | reflexivity].
  - rewrite (Hunready true); [reflexivity |].
    right; right; right. split; reflexivity.
Defined.

(** The claim C9 fails for the hook in its first render: the active tenant
    holds ["b:view"], the key ["b:view"] is the first that the matcher
    accepts, and the hook, not yet mounted, runs the ["default"] handler and
    not the handler of ["b:view"]. *)
Lemma usePermissionMatch_unmounted_counterexample :
  activeTenantId b_view_state = Some "default"
  /\ permissions <$> (tenants b_view_state !! "default") = Some ["b:view"]
  /\ first_match ["b:view"] example_handlers "b:view" (logging_handler "h2" 2)
  /\ bind (logging_handler "h2" 2) (fun r => ret (Some r)) [] = (Ok (Some 2), ["h2"])
  /\ usePermissionMatch false b_view_state example_handlers []
     = (Ok (Some 0), ["default"]).
Proof.
  split; [reflexivity |]. split; [reflexivity |]. split; [| split; reflexivity].
  exists [("default", logging_handler "default" 0); ("a:view", logging_handler "h1" 1)], [].
  split; [reflexivity |]. split; [discriminate |]. split; [reflexivity |].
  constructor; [now left |]. constructor; [now right | constructor].
Qed.

(** ** The bulk checks *)

(** No [PermissionString] names a member of [Object.prototype]. *)
Lemma permission_string_not_inherited (p : string) :
  is_permission_string p = true -> proto_member p = false.
Proof.
  intros Hp. apply not_true_is_false. intros Hproto.
  apply includes_In in Hproto. simpl in Hproto.
  repeat (destruct Hproto as [<- | Hproto]; [discriminate Hp |]).
  contradiction.
Qed.

Lemma hook_ready (state : RBACState TenantRecord) (tenant : TenantRecord) :
  isLoading state = false -> active_tenant state = Some tenant ->
  useHasAnyPermission true state =
    (fun ps => Ok (if map_has tenant "*" then true else existsb (map_has tenant) ps))
  /\ useHasAllPermissions true state =
    (fun ps => Ok (if map_has tenant "*" then true else forallb (map_has tenant) ps)).
Proof.
  intros Hload Hactive. apply active_entry_own in Hactive.
  unfold useHasAnyPermission, useHasAllPermissions.
  rewrite Hload, Hactive. split; reflexivity.
Qed.

(** For a listed string that names no member of [Object.prototype], the map
    of a built record answers by membership in the held list. *)
Lemma map_has_listed (curr : TenantAuthInput) (ps : list string) (p : string) :
  Forall (fun q => proto_member q = false) ps -> In p ps ->
  map_has (record_of curr) p = includes (in_permissions curr) p.
Proof.
  intros Hall Hin. rewrite map_has_record_of.
  rewrite List.Forall_forall in Hall. rewrite (Hall p Hin). apply orb_false_r.
Qed.

(** C10: for a mounted hook and a loaded store whose active tenant was built
    by [processTenants], the bulk checks decide by membership of the listed
    permissions in the held list, apart from a held ["*"]; resource wildcards
    play no role.  The listed strings are permission strings, which name no
    member of [Object.prototype].  For the tenant holding exactly
    ["billing:*"]: [useHasPermission "billing:view"] is true, both bulk checks
    on [["billing:view"]] are false, [useHasAllPermissions []] is true and
    [useHasAnyPermission []] is false. *)
Theorem bulk_checks_exact_membership (state : RBACState TenantRecord)
    (curr : TenantAuthInput) (ps : list string) :
  isLoading state = false ->
  active_tenant state = Some (record_of curr) ->
  Forall (fun p => proto_member p = false) ps ->
  (exists any all, useHasAnyPermission true state ps = Ok any
                   /\ useHasAllPermissions true state ps = Ok all)
  /\ (useHasAnyPermission true state ps = Ok true <->
     In "*" (in_permissions curr) \/
     exists p, In p ps /\ In p (in_permissions curr))
  /\ (useHasAllPermissions true state ps = Ok true <->
     In "*" (in_permissions curr) \/
     forall p, In p ps -> In p (in_permissions curr))
  /\ (usePermissions true billing_state = ["billing:*"]
      /\ useHasPermission true billing_state "billing:view" = Ok true
      /\ useHasAnyPermission true billing_state ["billing:view"] = Ok false
      /\ useHasAllPermissions true billing_state ["billing:view"] = Ok false
      /\ useHasAllPermissions true billing_state [] = Ok true
      /\ useHasAnyPermission true billing_state [] = Ok false).
Proof.
  intros Hload Hactive Hlisted.
  destruct (hook_ready state (record_of curr) Hload Hactive) as [-> ->].
  rewrite map_has_record_of. change (proto_member "*") with false.
  rewrite orb_false_r.
  split; [eauto |]. split; [| split].
  - destruct (includes (in_permissions curr) "*") eqn:Hstar.
    + apply includes_In in Hstar. tauto.
    + apply includes_false in Hstar. split.
      * intros [= Hany]. apply existsb_exists in Hany.
        destruct Hany as (p & Hin & Hhas).
        rewrite (map_has_listed curr ps p Hlisted Hin) in Hhas.
        apply includes_In in Hhas. eauto.
      * intros [H | (p & Hin & Hheld)]; [contradiction |].
        f_equal. apply existsb_exists. exists p. split; [assumption |].
        rewrite (map_has_listed curr ps p Hlisted Hin). now apply includes_In.
  - destruct (includes (in_permissions curr) "*") eqn:Hstar.
    + apply includes_In in Hstar. tauto.
    + apply includes_false in Hstar. split.
      * intros [= Hall]. rewrite forallb_forall in Hall.
        right. intros p Hin. specialize (Hall p Hin).
        rewrite (map_has_listed curr ps p Hlisted Hin) in Hall.
        now apply includes_In.
      * intros [H | Hall]; [contradiction |].
        f_equal. apply forallb_forall. intros p Hin.
        rewrite (map_has_listed curr ps p Hlisted Hin).
        apply includes_In. now apply Hall.
  - repeat split; reflexivity.
Qed.

Lemma bulk_checks_exact_membership_witness :
  isLoading billing_state = false /\
  active_tenant billing_state
    = Some (record_of {| tenantId := "default"; in_roles := None;
                         in_permissions := ["billing:*"] |}) /\
  Forall (fun p => proto_member p = false) ["billing:view"] /\
  ~ (useHasAnyPermission true billing_state ["billing:view"] = Ok true).
Proof.
  assert (Hload : isLoading billing_state = false) by reflexivity.
  assert (Hactive : active_tenant billing_state
            = Some (record_of {| tenantId := "default"; in_roles := None;
                                 in_permissions := ["billing:*"] |}))
    by reflexivity.
  assert (Hlisted : Forall (fun p => proto_member p = false) ["billing:view"])
    by (repeat constructor).
  split; [exact Hload |]. split; [exact Hactive |]. split; [exact Hlisted |].
  intros Hany.
  apply (proj1 (proj1 (proj2 (bulk_checks_exact_membership billing_state _
                  ["billing:view"] Hload Hactive Hlisted)))) in Hany.
  destruct Hany as [[H | []] | (p & [<- | []] & [H | []])]; discriminate H.
Defined.
(** * Further properties of the code *)

(** ** More about the matcher *)

Lemma checkPermission_incl (held held' : list string) (required : string) :
  incl held held' ->
  checkPermission held required = true -> checkPermission held' required = true.
Proof.
  intros Hincl. rewrite !checkPermission_iff.
  intros [H | [H | [Hne H]]]; auto using (Hincl _).
Qed.

(** X1: holding more never revokes: what a list of permissions passes, every
    list that contains it passes too (so order and repetition in the held
    list do not matter). *)
Theorem checkPermission_more_permissions (held held' : list string) (required : string) :
  incl held held' ->
  checkPermission held required = true -> checkPermission held' required = true.
Proof. apply checkPermission_incl. Qed.

Lemma checkPermission_more_permissions_witness :
  incl ["projects:view"] ["billing:*"; "projects:view"] /\
  checkPermission ["billing:*"; "projects:view"] "projects:view" = true.
Proof.
  assert (Hincl : incl ["projects:view"] ["billing:*"; "projects:view"]).
  { intros x [<- | []]. right. now left. }
  split; [exact Hincl |].
  apply (checkPermission_more_permissions ["projects:view"] _ "projects:view" Hincl).
  reflexivity.
Defined.

Lemma string_length_append (a b : string) :
  String.length (a +:+ b) = String.length a + String.length b.
Proof. induction a as [| c a IH]; simpl; [reflexivity | now rewrite IH]. Qed.

Lemma before_first_clean (c : ascii) (s : string) :
  contains_char c (before_first c s) = false.
Proof.
  induction s as [| d rest IH]; simpl; [reflexivity |].
  destruct (Ascii.eqb d c) eqn:Hd; simpl; [reflexivity |].
  now rewrite Hd, IH.
Qed.

Lemma before_first_shorter (c : ascii) (s : string) :
  contains_char c s = true -> String.length (before_first c s) < String.length s.
Proof.
  induction s as [| d rest IH]; simpl; [discriminate |].
  destruct (Ascii.eqb d c); simpl; [lia |].
  intros H. specialize (IH H). lia.
Qed.

Lemma before_first_wildcard (x : string) :
  before_first ":" (x +:+ ":*") = before_first ":" x.
Proof.
  induction x as [| d rest IH]; simpl; [reflexivity |].
  destruct (Ascii.eqb d ":"); [reflexivity | now rewrite IH].
Qed.

(** A held ["<x>:*"] is not the global wildcard. *)
Lemma wildcard_not_star (x : string) : x +:+ ":*" <> "*".
Proof.
  destruct x as [| c [| d rest]]; simpl; try discriminate.
Qed.

(** X2: a held ["r:*"] passes every ["r:<action>"], and a held ["q:*"] for
    another resource passes none of them. *)
Theorem resource_wildcard_scope (r q a : string) :
  r <> "" -> contains_char ":" r = false -> contains_char ":" q = false -> q <> r ->
  checkPermission [r +:+ ":*"] (r +:+ ":" +:+ a) = true /\
  checkPermission [q +:+ ":*"] (r +:+ ":" +:+ a) = false.
Proof.
  intros Hne Hr Hq Hqr.
  pose proof (resource_of_prefix r a Hr) as Hres.
  assert (Hpre : before_first ":" (r +:+ ":" +:+ a) = r)
    by (now apply before_first_prefix).
  split.
  - apply checkPermission_iff. right; right. rewrite Hres. split; [exact Hne | now left].
  - apply not_true_is_false. rewrite checkPermission_iff, Hres.
    intros [[H | []] | [[H | []] | [_ [H | []]]]].
    + now apply wildcard_not_star in H.
    + apply (f_equal (before_first ":")) in H.
      rewrite before_first_wildcard, (before_first_absent _ _ Hq) in H.
      rewrite Hpre in H. contradiction.
    + apply (f_equal (before_first ":")) in H.
      rewrite !before_first_wildcard in H.
      rewrite (before_first_absent _ _ Hq), (before_first_absent _ _ Hr) in H.
      contradiction.
Qed.

Lemma resource_wildcard_scope_witness :
  checkPermission ["billing:*"] "billing:refund" = true /\
  checkPermission ["projects:*"] "billing:refund" = false.
Proof.
  apply (resource_wildcard_scope "billing" "projects" "refund");
    [discriminate | reflexivity | reflexivity | discriminate].
Defined.

(** X3: wildcards go one level deep.  A held ["<w>:*"] whose prefix [w]
    itself contains [":"] (as in ["org:billing:*"]) covers nothing: it passes
    only the required string spelled exactly like it. *)
Theorem nested_wildcard_is_literal (w required : string) :
  contains_char ":" w = true ->
  (checkPermission [w +:+ ":*"] required = true <-> required = w +:+ ":*").
Proof.
  intros Hw. rewrite checkPermission_iff. split.
  - intros [[H | []] | [[H | []] | [_ [H | []]]]].
    + now apply wildcard_not_star in H.
    + congruence.
    + exfalso.
      pose proof (f_equal (before_first ":") H) as Hb.
      rewrite !before_first_wildcard in Hb.
      rewrite resource_of_before_first in *.
      rewrite (before_first_absent _ _ (before_first_clean ":" required)) in Hb.
      pose proof (f_equal String.length H) as Hl.
      rewrite !string_length_append in Hl.
      pose proof (before_first_shorter ":" w Hw) as Hlt.
      rewrite <- Hb in Hl. lia.
  - intros ->. right; left. now left.
Qed.

Lemma nested_wildcard_is_literal_witness :
  contains_char ":" "org:billing" = true /\
  checkPermission ["org:billing:*"] "org:billing:view" = false.
Proof.
  split; [reflexivity |].
  apply not_true_is_false. intros H.
  apply (proj1 (nested_wildcard_is_literal "org:billing" "org:billing:view" eq_refl)) in H.
  discriminate H.
Defined.

(** ** More about the access combinator *)

Lemma includes_incl (l l' : list string) (x : string) :
  incl l l' -> includes l x = true -> includes l' x = true.
Proof. rewrite !includes_In. auto. Qed.

Lemma roleMatch_incl (t t' : TenantRecord) (requirements : Requirements) :
  incl (roles t) (roles t') ->
  roleMatch t requirements = true -> roleMatch t' requirements = true.
Proof.
  intros Hincl. rewrite !roleMatch_spec. unfold role_satisfied.
  intros [H | [H | (r & Hin & Hheld)]]; eauto 6.
Qed.

Lemma permMatch_incl (t t' : TenantRecord) (requirements : Requirements)
    (requireAll : bool) :
  incl (permissions t) (permissions t') ->
  permMatch t requirements requireAll = true ->
  permMatch t' requirements requireAll = true.
Proof.
  intros Hincl. rewrite !permMatch_spec. unfold permission_satisfied.
  intros [H | [H | H]]; [now left | right; left; auto |].
  right; right. destruct requireAll.
  - eapply List.Forall_impl; [| exact H]. intros p. now apply checkPermission_incl.
  - eapply List.Exists_impl; [| exact H]. intros p. now apply checkPermission_incl.
Qed.

(** X4: a tenant with more roles and more permissions is never denied what a
    tenant with fewer is granted, for every requirement and either value of
    [requireAll]. *)
Theorem checkAccess_monotone (t t' : TenantRecord) (requirements : Requirements)
    (requireAll : bool) :
  incl (roles t) (roles t') -> incl (permissions t) (permissions t') ->
  checkAccess t requirements requireAll = true ->
  checkAccess t' requirements requireAll = true.
Proof.
  intros Hroles Hperms. unfold checkAccess.
  destruct (has_items (req_roles requirements)),
           (has_items (req_permissions requirements)); simpl; try reflexivity.
  - rewrite !andb_true_iff. intros [Hr Hp].
    split; [now apply (roleMatch_incl t) | now apply (permMatch_incl t)].
  - now apply roleMatch_incl.
  - now apply permMatch_incl.
Qed.

Lemma checkAccess_monotone_witness :
  checkAccess {| roles := ["admin"; "manager"]; permissions := ["a:view"; "b:*"];
                 perm_map := build_map ["a:view"; "b:*"] |}
              {| req_roles := Some ["admin"]; req_permissions := Some ["a:view"] |}
              true = true.
Proof.
  apply (checkAccess_monotone
           {| roles := ["admin"]; permissions := ["a:view"];
              perm_map := build_map ["a:view"] |}).
  - intros x [<- | []]. now left.
  - intros x [<- | []]. now left.
  - reflexivity.
Defined.

(** X5: [requireAll] only ever restricts: a requirement granted with
    [requireAll] is granted without it. *)
Theorem requireAll_restricts (tenant : TenantRecord) (requirements : Requirements) :
  checkAccess tenant requirements true = true ->
  checkAccess tenant requirements false = true.
Proof.
  assert (Hperm : permMatch tenant requirements true = true ->
                  permMatch tenant requirements false = true).
  { unfold permMatch.
    destruct (req_permissions requirements) as [[| p ps] |]; simpl; try reflexivity.
    destruct (includes (permissions tenant) "*"); [reflexivity |].
    rewrite andb_true_iff. intros [-> _]. reflexivity. }
  unfold checkAccess.
  destruct (has_items (req_roles requirements)),
           (has_items (req_permissions requirements)); simpl; try tauto.
  rewrite !andb_true_iff. tauto.
Qed.

Lemma requireAll_restricts_witness :
  checkAccess {| roles := []; permissions := ["a:view"; "a:edit"];
                 perm_map := build_map ["a:view"; "a:edit"] |}
              {| req_roles := None; req_permissions := Some ["a:view"; "a:edit"] |}
              false = true.
Proof. apply requireAll_restricts. reflexivity. Defined.

(** ** More about the store *)

Lemma last_entry_snoc (id : string) (ts : list TenantAuthInput) (t : TenantAuthInput) :
  last_entry id (ts ++ [t]) =
    if String.eqb (tenantId t) id then Some t else last_entry id ts.
Proof. unfold last_entry. now rewrite rev_unit. Qed.

Lemma fold_insert_lookup (ts : list TenantAuthInput) (acc : gmap string TenantRecord)
    (id : string) :
  fold_left (fun acc curr => <[tenantId curr := record_of curr]> acc) ts acc !! id =
    match last_entry id ts with
    | Some t => Some (record_of t)
    | None => acc !! id
    end.
Proof.
  induction ts as [| t ts IH] using rev_ind; [reflexivity |].
  rewrite fold_left_app, last_entry_snoc. simpl.
  destruct (String.eqb (tenantId t) id) eqn:Heq.
  - apply String.eqb_eq in Heq. subst. apply lookup_insert_eq.
  - apply String.eqb_neq in Heq. rewrite lookup_insert_ne by assumption. exact IH.
Qed.

(** Every record of a normalised input was built by [record_of]. *)
Lemma processTenants_records (authInput : AuthInput) (id : string) (r : TenantRecord) :
  processTenants authInput !! id = Some r -> exists curr, r = record_of curr.
Proof.
  unfold processTenants. rewrite fold_insert_lookup.
  destruct (last_entry id _) as [t |]; [| rewrite lookup_empty; discriminate].
  intros [= <-]. now exists t.
Qed.

Lemma processTenants_flat_lookup (ps : list string) (id : string) :
  processTenants (StringArray ps) !! id =
    if String.eqb id "default"
    then Some {| roles := []; permissions := ps; perm_map := build_map ps |}
    else None.
Proof.
  assert (Hflat : processTenants (StringArray ps) =
            <["default" := {| roles := []; permissions := ps;
                              perm_map := build_map ps |}]> ∅)
    by (unfold processTenants; now destruct ps).
  rewrite Hflat. destruct (String.eqb id "default") eqn:Heq.
  - apply String.eqb_eq in Heq. subst. apply lookup_insert_eq.
  - apply String.eqb_neq in Heq. rewrite lookup_insert_ne by congruence.
    apply lookup_empty.
Qed.

(** X6: in an array of tenants, the last element with a given [tenantId]
    is the one that is stored, and ids that do not occur are absent; a flat
    array of strings is stored under ["default"] alone, without roles. *)
Theorem processTenants_last_entry_wins (ts : list TenantAuthInput) (ps : list string)
    (id : string) :
  ts <> [] ->
  processTenants (TenantArray ts) !! id = record_of <$> last_entry id ts
  /\ processTenants (StringArray ps) !! id =
       if String.eqb id "default"
       then Some {| roles := []; permissions := ps; perm_map := build_map ps |}
       else None.
Proof.
  intros Hne. split.
  - destruct ts as [| t rest]; [congruence |].
    unfold processTenants.
    cbn [input_length first_is_string as_tenants length Nat.eqb orb].
    rewrite fold_insert_lookup, lookup_empty.
    now destruct (last_entry id (t :: rest)).
  - apply processTenants_flat_lookup.
Qed.

Lemma processTenants_last_entry_wins_witness :
  [ {| tenantId := "t1"; in_roles := None; in_permissions := ["a:view"] |};
    {| tenantId := "t1"; in_roles := Some ["admin"]; in_permissions := ["b:view"] |} ]
    <> [] /\
  permissions <$>
    (processTenants
       (TenantArray
          [ {| tenantId := "t1"; in_roles := None; in_permissions := ["a:view"] |};
            {| tenantId := "t1"; in_roles := Some ["admin"];
               in_permissions := ["b:view"] |} ]) !! "t1")
  = Some ["b:view"].
Proof.
  assert (Hne : [ {| tenantId := "t1"; in_roles := None; in_permissions := ["a:view"] |};
                  {| tenantId := "t1"; in_roles := Some ["admin"];
                     in_permissions := ["b:view"] |} ] <> []) by discriminate.
  split; [exact Hne |].
  rewrite (proj1 (processTenants_last_entry_wins _ [] "t1" Hne)). reflexivity.
Defined.

(** What holds of the state of every provider: while it is loading it has no
    tenants, and its records were built by [record_of]. *)
Lemma reachable_invariant (p : Provider) :
  reachable p ->
  (isLoading (current p) = true -> tenants (current p) = ∅) /\
  (forall id r, tenants (current p) !! id = Some r -> exists curr, r = record_of curr).
Proof.
  intros (d & initialData & events & ->). unfold run.
  set (inv := fun st : RBACState TenantRecord =>
    (isLoading st = true -> tenants st = ∅) /\
    (forall id r, tenants st !! id = Some r -> exists curr, r = record_of curr)).
  assert (Hempty : inv empty_state).
  { split; [reflexivity |]. intros id r H. simpl in H.
    rewrite lookup_empty in H. discriminate. }
  assert (Hgen : forall q, inv (current q) ->
                 inv (current (fold_left handle events q))).
  { induction events as [| e rest IH]; intros q Hq; [exact Hq |].
    simpl. apply IH. destruct e as [a | id | | d']; simpl.
    - split; [discriminate |]. intros id r. simpl. apply processTenants_records.
    - exact Hq.
    - exact Hempty.
    - now destruct (Bool.eqb d' (debug q)). }
  apply Hgen. unfold mount, initial_state. simpl.
  destruct initialData as [data |]; [| exact Hempty].
  destruct (0 <? input_length data)%nat; [| exact Hempty].
  split; [discriminate |]. intros id r. simpl. apply processTenants_records.
Qed.

(** X7: in every state a provider can reach, the [map] of each tenant record
    is exactly the membership of its [permissions]. *)
Theorem tenant_map_is_membership (p : Provider) (id : string) (r : TenantRecord)
    (perm : string) :
  reachable p ->
  tenants (current p) !! id = Some r ->
  (perm_map r !! perm = Some true <-> In perm (permissions r))
  /\ (perm_map r !! perm = None <-> ~ In perm (permissions r)).
Proof.
  intros Hreach Hlookup.
  destruct (proj2 (reachable_invariant p Hreach) id r Hlookup) as [curr ->].
  simpl. rewrite build_map_lookup, <- includes_In.
  destruct (includes (in_permissions curr) perm); split; split; congruence.
Qed.

Lemma tenant_map_is_membership_witness :
  reachable (run (mount false None) [CallSetAuth (StringArray ["billing:*"])]) /\
  forall r,
    tenants billing_state !! "default" = Some r ->
    perm_map r !! "billing:view" = None.
Proof.
  assert (Hreach : reachable (run (mount false None)
                                [CallSetAuth (StringArray ["billing:*"])]))
    by (now exists false, None, [CallSetAuth (StringArray ["billing:*"])]).
  split; [exact Hreach |].
  intros r Hr.
  apply (proj2 (tenant_map_is_membership _ "default" r "billing:view" Hreach Hr)).
  injection Hr as <-. simpl. intros [H | []]. discriminate H.
Defined.

(** X8: a provider that is loading has no tenants, so the hooks that do not
    test [isLoading] cannot see stale data: [usePermissions] is empty while
    loading. *)
Theorem loading_means_no_tenants (p : Provider) (mounted : bool) :
  reachable p ->
  isLoading (current p) = true ->
  tenants (current p) = ∅ /\ usePermissions mounted (current p) = [].
Proof.
  intros Hreach Hload.
  pose proof (proj1 (reachable_invariant p Hreach) Hload) as Hempty.
  split; [exact Hempty |].
  unfold usePermissions, active_entry, plain_get. rewrite Hempty.
  destruct (negb mounted); [reflexivity |].
  destruct (activeTenantId (current p)) as [id |]; [| reflexivity].
  destruct (truthy_string id); [| reflexivity]. rewrite lookup_empty.
  now destruct (proto_member id).
Qed.

Lemma loading_means_no_tenants_witness :
  let p := run (mount false (Some (StringArray ["x:view"])))
               [CallSwitchTenant "t1"; CallReset; CallSwitchTenant "default"] in
  reachable p /\ isLoading (current p) = true /\ usePermissions true (current p) = [].
Proof.
  intros p.
  assert (Hreach : reachable p) by (now eexists _, _, _).
  assert (Hload : isLoading (current p) = true) by reflexivity.
  split; [exact Hreach |]. split; [exact Hload |].
  apply (loading_means_no_tenants p true Hreach Hload).
Defined.

(** X9: hydrating a provider with non-empty initial data is loading that
    data into an empty store; with an empty array the provider ignores the
    data and stays in the loading state. *)
Theorem hydration_is_load (data : AuthInput) :
  initial_state (Some data) =
    if (0 <? input_length data)%nat
    then setAuth empty_state data empty_state
    else empty_state.
Proof.
  unfold initial_state, setAuth. simpl.
  destruct (0 <? input_length data)%nat; [| reflexivity].
  now rewrite andb_true_r.
Qed.

(** X10: a load replaces the tenants of every earlier load and clears
    [isLoading], and repeating a load changes nothing. *)
Theorem load_supersedes_and_is_idempotent (p : Provider) (a1 a2 : AuthInput) :
  tenants (current (run p [CallSetAuth a1; CallSetAuth a2])) = processTenants a2
  /\ isLoading (current (run p [CallSetAuth a1; CallSetAuth a2])) = false
  /\ run p [CallSetAuth a2; CallSetAuth a2] = run p [CallSetAuth a2].
Proof.
  repeat split. unfold run. simpl. unfold setAuth. simpl.
  destruct (is_defined (processTenants a2 !! "default")
            && negb (truthy_id (activeTenantId (closed_over p)))); reflexivity.
Qed.

(** X11: as long as the [debug] prop does not change, a load activates
    ["default"] exactly when it contains a ["default"] tenant and no tenant
    was active in the state the provider was mounted with; otherwise it keeps
    the active tenant.  The tenant active at the time of the load plays no
    role in the test. *)
Theorem auto_activation_reads_mount_state (d : bool) (initialData : option AuthInput)
    (events : list Event) (authInput : AuthInput) :
  debug_unchanged events ->
  activeTenantId
    (current (handle (run (mount d initialData) events) (CallSetAuth authInput))) =
    if is_defined (processTenants authInput !! "default")
       && negb (truthy_id (activeTenantId (initial_state initialData)))
    then Some "default"
    else activeTenantId (current (run (mount d initialData) events)).
Proof.
  intros Hdebug. cbn [handle current].
  rewrite setAuth_activeTenantId, (run_closed_over events _ Hdebug).
  reflexivity.
Qed.

Lemma auto_activation_reads_mount_state_witness :
  debug_unchanged [CallSetAuth (StringArray ["a:view"]); CallSwitchTenant "t1"] /\
  activeTenantId
    (current (run (mount false None)
                [CallSetAuth (StringArray ["a:view"]); CallSwitchTenant "t1";
                 CallSetAuth (StringArray ["b:view"])]))
  = Some "default".
Proof.
  assert (Hdebug : debug_unchanged
                     [CallSetAuth (StringArray ["a:view"]); CallSwitchTenant "t1"])
    by (repeat constructor; discriminate).
  split; [exact Hdebug |].
  apply (auto_activation_reads_mount_state false None _
           (StringArray ["b:view"]) Hdebug).
Defined.

(** ** More about the hooks *)

(** X12: the empty string cannot be the active tenant.  After
    [switchTenant("")] every check answers false and [usePermissions] is
    empty, whatever the store holds under the key [""]. *)
Theorem empty_tenant_id_is_inactive (state : RBACState TenantRecord) (mounted : bool)
    (role permission : string) (perms : list string) :
  activeTenantId state = Some "" ->
  useHasRole mounted state role = Ok false
  /\ useHasPermission mounted state permission = Ok false
  /\ useHasAnyPermission mounted state perms = Ok false
  /\ useHasAllPermissions mounted state perms = Ok false
  /\ usePermissions mounted state = [].
Proof.
  intros Hid.
  assert (Hnone : active_entry state = Missing)
    by (unfold active_entry; now rewrite Hid).
  unfold useHasRole, useHasPermission, useHasAnyPermission, useHasAllPermissions,
    usePermissions.
  rewrite Hnone.
  destruct (negb mounted); simpl; [tauto |].
  destruct (isLoading state); tauto.
Qed.

Lemma empty_tenant_id_is_inactive_witness :
  let st := current (run (mount false None)
              [CallSetAuth (TenantArray
                 [{| tenantId := ""; in_roles := Some ["*"]; in_permissions := ["*"] |}]);
               CallSwitchTenant ""]) in
  activeTenantId st = Some "" /\
  is_defined (tenants st !! "") = true /\
  useHasPermission true st "a:view" = Ok false.
Proof.
  intros st.
  assert (Hid : activeTenantId st = Some "") by reflexivity.
  split; [exact Hid |]. split; [reflexivity |].
  apply (empty_tenant_id_is_inactive st true "admin" "a:view" [] Hid).
Defined.

Lemma checkAccess_one_permission (tenant : TenantRecord) (permission : string)
    (rs : option (list string)) :
  has_items rs = false ->
  checkAccess tenant {| req_roles := rs; req_permissions := Some [permission] |} false
  = checkPermission (permissions tenant) permission.
Proof.
  intros Hrs. unfold checkAccess, permMatch. cbn [req_roles req_permissions].
  rewrite Hrs. simpl.
  destruct (includes (permissions tenant) "*") eqn:Hstar.
  - symmetry. apply checkPermission_star. now apply includes_In.
  - apply orb_false_r.
Qed.

Lemma checkAccess_one_role (tenant : TenantRecord) (role : string)
    (ps : option (list string)) :
  has_items ps = false ->
  checkAccess tenant {| req_roles := Some [role]; req_permissions := ps |} false
  = includes (roles tenant) "*" || includes (roles tenant) role.
Proof.
  intros Hps. unfold checkAccess, roleMatch. cbn [req_roles req_permissions].
  rewrite Hps. simpl.
  destruct (includes (roles tenant) "*"); [reflexivity |]. simpl. apply orb_false_r.
Qed.

(** X26: away from the names of [Object.prototype] the hooks fail closed.
    While the store is loading, or no tenant is active, or the active id is
    no key of [tenants] and names no member of [Object.prototype], the four
    checks answer false without throwing, and [useAccess] answers true
    exactly for a requirement whose roles and permissions are both empty or
    absent. *)
Theorem hooks_fail_closed_off_prototype (state : RBACState TenantRecord)
    (mounted : bool) (role permission : string) (perms : list string)
    (requirements : Requirements) :
  isLoading state = true \/
  activeTenantId state = None \/
  (exists id, activeTenantId state = Some id /\ tenants state !! id = None
              /\ proto_member id = false) ->
  useHasRole mounted state role = Ok false
  /\ useHasPermission mounted state permission = Ok false
  /\ useHasAnyPermission mounted state perms = Ok false
  /\ useHasAllPermissions mounted state perms = Ok false
  /\ useAccess mounted state requirements =
       Ok (negb (has_items (req_roles requirements))
           && negb (has_items (req_permissions requirements))).
Proof.
  intros Hstate.
  unfold useHasRole, useHasPermission, useHasAnyPermission, useHasAllPermissions,
    useAccess.
  destruct Hstate as [Hload | Hnone].
  - rewrite Hload, orb_true_r.
    repeat split.
    now destruct (negb (has_items (req_roles requirements))
                  && negb (has_items (req_permissions requirements))).
  - rewrite (active_entry_missing state Hnone).
    destruct (negb mounted || isLoading state); repeat split;
      now destruct (negb (has_items (req_roles requirements))
                    && negb (has_items (req_permissions requirements))).
Qed.

Lemma hooks_fail_closed_off_prototype_witness :
  let st := switchTenant "t9" prototype_state in
  (exists id, activeTenantId st = Some id /\ tenants st !! id = None
              /\ proto_member id = false) /\
  useHasPermission true st "x:view" = Ok false /\
  useAccess true st {| req_roles := None; req_permissions := Some [] |} = Ok true.
Proof.
  intros st.
  assert (Hid : exists id, activeTenantId st = Some id /\ tenants st !! id = None
                           /\ proto_member id = false)
    by (exists "t9"; repeat split; reflexivity).
  split; [exact Hid |].
  pose proof (hooks_fail_closed_off_prototype st true "admin" "x:view" ["x:view"]
                {| req_roles := None; req_permissions := Some [] |}
                (or_intror (or_intror Hid))) as (_ & Hperm & _ & _ & Haccess).
  split; [exact Hperm | exact Haccess].
Defined.

(** An inherited member is not a record. *)
Lemma active_entry_inherited_no_record {T : Type} (state : RBACState T) :
  active_entry state = Inherited -> active_tenant state = None.
Proof.
  intros Hentry. destruct (active_tenant state) as [t |] eqn:Ht; [| reflexivity].
  apply active_entry_own in Ht. congruence.
Qed.

Lemma active_entry_missing_no_record {T : Type} (state : RBACState T) :
  active_entry state = Missing -> active_tenant state = None.
Proof.
  intros Hentry. destruct (active_tenant state) as [t |] eqn:Ht; [| reflexivity].
  apply active_entry_own in Ht. congruence.
Qed.

Lemma useHasPermission_true (mounted : bool) (state : RBACState TenantRecord)
    (permission : string) :
  useHasPermission mounted state permission = Ok true <->
    mounted = true /\ isLoading state = false /\
    exists t, active_tenant state = Some t /\
              checkPermission (permissions t) permission = true.
Proof.
  unfold useHasPermission.
  destruct mounted, (isLoading state); cbn [negb orb];
    try (split; [discriminate | intros (? & ? & _); discriminate]).
  destruct (active_entry state) as [t | |] eqn:Hentry.
  - apply active_entry_own in Hentry.
    rewrite (checkAccess_one_permission t permission None eq_refl). split.
    + intros [= H]. repeat split. now exists t.
    + intros (_ & _ & t' & Ht' & H). rewrite Hentry in Ht'.
      injection Ht' as <-. now rewrite H.
  - apply active_entry_inherited_no_record in Hentry.
    split; [discriminate | intros (_ & _ & t & Ht & _); congruence].
  - apply active_entry_missing_no_record in Hentry.
    split; [discriminate | intros (_ & _ & t & Ht & _); congruence].
Qed.

Lemma useHasRole_true (mounted : bool) (state : RBACState TenantRecord)
    (role : string) :
  useHasRole mounted state role = Ok true <->
    mounted = true /\ isLoading state = false /\
    exists t, active_tenant state = Some t /\
              (In "*" (roles t) \/ In role (roles t)).
Proof.
  unfold useHasRole.
  destruct mounted, (isLoading state); cbn [negb orb];
    try (split; [discriminate | intros (? & ? & _); discriminate]).
  destruct (active_entry state) as [t | |] eqn:Hentry.
  - apply active_entry_own in Hentry.
    rewrite (checkAccess_one_role t role None eq_refl). split.
    + intros [= H]. apply orb_true_iff in H. rewrite !includes_In in H.
      repeat split. now exists t.
    + intros (_ & _ & t' & Ht' & H). rewrite Hentry in Ht'.
      injection Ht' as <-. f_equal. apply orb_true_iff. now rewrite !includes_In.
  - apply active_entry_inherited_no_record in Hentry.
    split; [discriminate | intros (_ & _ & t & Ht & _); congruence].
  - apply active_entry_missing_no_record in Hentry.
    split; [discriminate | intros (_ & _ & t & Ht & _); congruence].
Qed.

(** X13: the two single-item hooks, when they say yes.  [useHasPermission]
    is true exactly when the hook is mounted, the store is loaded, and the
    active tenant's permissions pass the matcher; [useHasRole] exactly when
    mounted, loaded, and the active tenant has the role or the role ["*"].
    Permissions never grant a role and roles never grant a permission. *)
Theorem single_item_hooks (mounted : bool) (state : RBACState TenantRecord)
    (role permission : string) :
  (useHasPermission mounted state permission = Ok true <->
     mounted = true /\ isLoading state = false /\
     exists t, active_tenant state = Some t /\
               checkPermission (permissions t) permission = true)
  /\ (useHasRole mounted state role = Ok true <->
     mounted = true /\ isLoading state = false /\
     exists t, active_tenant state = Some t /\
               (In "*" (roles t) \/ In role (roles t))).
Proof. split; [apply useHasPermission_true | apply useHasRole_true]. Qed.

(** X14: for listed strings that name no member of [Object.prototype] (as
    every permission string does), the bulk checks never grant more than the
    wildcard-aware checks.  In every state a provider can reach, if
    [useHasAnyPermission] accepts such a list then the requirement check of
    [useAccess] accepts it, and if [useHasAllPermissions] accepts such a list
    then [useHasPermission] accepts each of its elements. *)
Theorem bulk_checks_are_stricter (p : Provider) (mounted : bool) (perms : list string) :
  reachable p ->
  Forall (fun q => proto_member q = false) perms ->
  (useHasAnyPermission mounted (current p) perms = Ok true ->
   useAccess mounted (current p) {| req_roles := None; req_permissions := Some perms |}
   = Ok true)
  /\ (useHasAllPermissions mounted (current p) perms = Ok true ->
      forall q, In q perms -> useHasPermission mounted (current p) q = Ok true).
Proof.
  intros Hreach Hlisted.
  pose proof (proj2 (reachable_invariant p Hreach)) as Hrec.
  unfold useHasAnyPermission, useHasAllPermissions, useAccess, useHasPermission.
  destruct (negb mounted || isLoading (current p)); [split; discriminate |].
  destruct (active_entry (current p)) as [t | |] eqn:Hentry;
    [| split; discriminate | split; discriminate].
  assert (Hbuilt : exists curr, t = record_of curr).
  { apply active_entry_own in Hentry. unfold active_tenant in Hentry.
    destruct (activeTenantId (current p)) as [id |]; [| discriminate].
    destruct (truthy_string id); [| discriminate]. now apply (Hrec id). }
  destruct Hbuilt as [curr ->]. rewrite map_has_record_of.
  change (proto_member "*") with false. rewrite orb_false_r.
  change (permissions (record_of curr)) with (in_permissions curr) in *.
  split.
  - intros [= Hany]. f_equal. unfold checkAccess, permMatch.
    cbn [req_roles req_permissions]. cbn [has_items andb].
    change (permissions (record_of curr)) with (in_permissions curr).
    destruct perms as [| q rest]; [reflexivity |]. cbn [has_items items].
    destruct (includes (in_permissions curr) "*"); [reflexivity |].
    apply existsb_exists in Hany. destruct Hany as (x & Hin & Hx).
    apply existsb_exists. exists x. split; [assumption |].
    rewrite (map_has_listed curr _ x Hlisted Hin) in Hx.
    apply checkPermission_iff. right; left. now apply includes_In.
  - intros [= Hall] q Hq. f_equal.
    rewrite (checkAccess_one_permission _ q None eq_refl).
    change (permissions (record_of curr)) with (in_permissions curr).
    apply checkPermission_iff.
    destruct (includes (in_permissions curr) "*") eqn:Hstar.
    + left. now apply includes_In.
    + right; left. rewrite forallb_forall in Hall. specialize (Hall q Hq).
      rewrite (map_has_listed curr _ q Hlisted Hq) in Hall. now apply includes_In.
Qed.

Lemma bulk_checks_are_stricter_witness :
  let p := run (mount false None) [CallSetAuth (StringArray ["a:view"; "b:*"])] in
  reachable p /\
  Forall (fun q => proto_member q = false) ["a:view"] /\
  useAccess true (current p) {| req_roles := None; req_permissions := Some ["a:view"] |}
  = Ok true /\
  useHasPermission true (current p) "a:view" = Ok true.
Proof.
  intros p.
  assert (Hreach : reachable p) by (now eexists _, _, _).
  assert (Hlisted : Forall (fun q => proto_member q = false) ["a:view"])
    by (repeat constructor).
  split; [exact Hreach |]. split; [exact Hlisted |].
  destruct (bulk_checks_are_stricter p true ["a:view"] Hreach Hlisted) as [Hany Hall].
  split.
  - apply Hany. reflexivity.
  - apply Hall; [reflexivity | now left].
Defined.

(** X15: a flat array of strings carries no roles.  Right after loading one,
    [useHasRole] never answers true, whichever role is asked and also when
    the permission ["*"] was loaded: it answers false, except that a mounted
    hook throws a [TypeError] when the active tenant id names a member of
    [Object.prototype]. *)
Theorem flat_load_has_no_roles (p : Provider) (ps : list string) (mounted : bool)
    (role : string) :
  useHasRole mounted (current (handle p (CallSetAuth (StringArray ps)))) role =
    match activeTenantId (current (handle p (CallSetAuth (StringArray ps)))) with
    | Some id => if mounted && proto_member id then Throw TypeErrorObject else Ok false
    | None => Ok false
    end.
Proof.
  unfold useHasRole, active_entry, plain_get. cbn [handle current].
  set (st := setAuth (closed_over p) (StringArray ps) (current p)).
  assert (Hload : isLoading st = false) by reflexivity.
  assert (Htenants : tenants st = processTenants (StringArray ps)) by reflexivity.
  rewrite Hload, Htenants, orb_false_r.
  destruct (activeTenantId st) as [id |]; [| now destruct mounted].
  rewrite processTenants_flat_lookup.
  destruct mounted; cbn [negb andb]; [| now destruct (proto_member id)].
  destruct id as [| c id']; [reflexivity |]. cbn [truthy_string].
  destruct (String.eqb (String c id') "default") eqn:Hdefault.
  - apply String.eqb_eq in Hdefault. rewrite Hdefault. reflexivity.
  - now destruct (proto_member (String c id')).
Qed.

(** X16: what was loaded for a tenant is what [usePermissions] lists once
    that tenant is selected: after [setAuth(ts)] and [switchTenant(id)], for
    a non-empty array [ts] and a non-empty [id], the hook returns the
    permissions of the last element of [ts] with that id, and nothing when
    there is none. *)
Theorem load_switch_list (p : Provider) (ts : list TenantAuthInput) (id : string) :
  ts <> [] -> id <> "" ->
  usePermissions true
    (current (run p [CallSetAuth (TenantArray ts); CallSwitchTenant id])) =
    match last_entry id ts with
    | Some t => in_permissions t
    | None => []
    end.
Proof.
  intros Hts Hid. apply truthy_string_nonempty in Hid.
  unfold run, usePermissions, active_entry, plain_get. simpl. rewrite Hid.
  destruct ts as [| t rest]; [congruence |].
  unfold processTenants.
  cbn [input_length first_is_string as_tenants length Nat.eqb orb].
  rewrite fold_insert_lookup, lookup_empty.
  destruct (last_entry id (t :: rest)); [reflexivity |].
  now destruct (proto_member id).
Qed.

Lemma load_switch_list_witness :
  usePermissions true
    (current (run (mount false None)
       [CallSetAuth (TenantArray
          [ {| tenantId := "org_1"; in_roles := Some ["admin"];
               in_permissions := ["projects:view"; "users:view"] |} ]);
        CallSwitchTenant "org_1"]))
  = ["projects:view"; "users:view"].
Proof.
  rewrite (load_switch_list (mount false None)
             [ {| tenantId := "org_1"; in_roles := Some ["admin"];
                  in_permissions := ["projects:view"; "users:view"] |} ] "org_1");
    [reflexivity | discriminate | discriminate].
Defined.

(** ** The guard components *)

Lemma checkAccess_raw_array (tenant : TenantRecord) (roles : list string)
    (permission : OneOrMany) (requireAll : bool) :
  (forall s, permission = One s -> s = "") ->
  checkAccess_raw tenant roles permission requireAll =
    Ok (checkAccess tenant {| req_roles := Some roles;
                              req_permissions := Some (to_array permission) |}
                    requireAll).
Proof.
  intros Hstr. unfold checkAccess_raw, checkAccess, permMatch.
  cbn [req_roles req_permissions items].
  destruct permission as [| s | l].
  - simpl. now rewrite andb_false_r.
  - rewrite (Hstr s eq_refl). simpl. now rewrite andb_false_r.
  - cbn [raw_has_items to_array].
    destruct (has_items (Some l)); simpl.
    + now destruct (includes (permissions tenant) "*"), requireAll.
    + now rewrite andb_false_r.
Qed.

(** X17: given an array of permissions, or none, [Can] decides exactly as
    [ProtectedRoute] does with the same props: it renders its children when
    the route guard's [hasAccess] is true, its fallback when that is false,
    and throws when that throws; which happens only for an active tenant id
    that names a member of [Object.prototype] and no tenant. *)
Theorem Can_decides_as_route {Node : Type} (props : RouteProps Node) (mounted : bool)
    (state : RBACState TenantRecord) (fallback : Node) :
  (forall s, route_permission props = One s -> s = "") ->
  Can mounted state (route_permission props) (route_role props)
      (route_children props) fallback (route_requireAll props)
  = match route_hasAccess props mounted state with
    | Ok hasAccess => Ok (if hasAccess then route_children props else fallback)
    | Throw error => Throw error
    end
  /\ (forall error,
        route_hasAccess props mounted state = Throw error ->
        exists id, activeTenantId state = Some id /\ tenants state !! id = None
                   /\ proto_member id = true).
Proof.
  intros Hstr. unfold Can, Can_hasAccess, route_hasAccess.
  destruct (negb mounted || isLoading state); [split; [reflexivity | discriminate] |].
  destruct (active_entry state) as [t | |] eqn:Hentry.
  - rewrite checkAccess_raw_array by assumption. split; [reflexivity | discriminate].
  - split.
    + unfold checkAccess_raw_inherited, checkAccess_inherited.
      cbn [req_roles req_permissions].
      destruct (has_items (Some (to_array (route_role props)))); [reflexivity |].
      destruct (route_permission props) as [| s | l]; cbn [raw_has_items to_array].
      * reflexivity.
      * now rewrite (Hstr s eq_refl).
      * now destruct (has_items (Some l)).
    + intros error _. unfold active_entry, plain_get in Hentry.
      destruct (activeTenantId state) as [id |]; [| discriminate].
      destruct (truthy_string id); [| discriminate].
      destruct (tenants state !! id) eqn:Hlookup; [discriminate |].
      destruct (proto_member id) eqn:Hproto; [| discriminate].
      now exists id.
  - split; [reflexivity | discriminate].
Qed.

Lemma Can_decides_as_route_witness :
  Can true billing_state (Many ["billing:view"; "users:view"]) Absent
      "children" "fallback" false
  = Ok "children"
  /\ exists id, activeTenantId prototype_state = Some id
                /\ tenants prototype_state !! id = None /\ proto_member id = true.
Proof.
  split.
  - exact (proj1 (Can_decides_as_route
             {| route_children := "children";
                route_permission := Many ["billing:view"; "users:view"];
                route_role := Absent; fallbackPath := "/"; route_fallback := None;
                route_requireAll := false; loadingComponent := None;
                redirect := true |} true billing_state "fallback"
             ltac:(discriminate))).
  - apply (proj2 (Can_decides_as_route
             {| route_children := "children";
                route_permission := Many ["billing:view"];
                route_role := Absent; fallbackPath := "/"; route_fallback := None;
                route_requireAll := false; loadingComponent := None;
                redirect := true |} true prototype_state "fallback"
             ltac:(discriminate)) TypeErrorObject).
    reflexivity.
Defined.

(** X18: given a single permission as a string, [Can] hands the string to
    [checkAccess] as it is.  Once the hook is mounted, the store loaded and a
    tenant active that does not hold ["*"], the render throws a [TypeError]
    (a string has no [some] or [every]), also when the tenant holds the
    permission; a tenant that holds ["*"] is decided on its roles alone. *)
Theorem Can_single_string_throws {Node : Type} (state : RBACState TenantRecord)
    (tenant : TenantRecord) (permission : string) (role : OneOrMany)
    (children fallback : Node) (requireAll : bool) :
  permission <> "" ->
  isLoading state = false ->
  active_tenant state = Some tenant ->
  Can true state (One permission) role children fallback requireAll =
    if includes (permissions tenant) "*"
    then Ok (if checkAccess tenant
                  {| req_roles := Some (to_array role); req_permissions := None |}
                  requireAll
             then children else fallback)
    else Throw TypeErrorObject.
Proof.
  intros Hne Hload Hactive. apply truthy_string_nonempty in Hne.
  apply active_entry_own in Hactive.
  unfold Can, Can_hasAccess, checkAccess_raw, checkAccess.
  rewrite Hload, Hactive. cbn [negb orb raw_has_items req_roles req_permissions].
  rewrite Hne.
  destruct (includes (permissions tenant) "*"); [| reflexivity].
  cbn [mbind result_bind has_items].
  destruct (to_array role) as [| r rs]; cbn [andb]; [reflexivity |].
  now rewrite andb_true_r.
Qed.

Lemma Can_single_string_throws_witness :
  let st := current (run (mount false None)
                       [CallSetAuth (StringArray ["projects:delete"])]) in
  useHasPermission true st "projects:delete" = Ok true /\
  Can true st (One "projects:delete") Absent "button" "nothing" false
  = Throw TypeErrorObject.
Proof.
  intros st. split; [reflexivity |].
  rewrite (Can_single_string_throws st
             {| roles := []; permissions := ["projects:delete"];
                perm_map := build_map ["projects:delete"] |}
             "projects:delete" Absent "button" "nothing" false);
    [reflexivity | discriminate | reflexivity | reflexivity].
Defined.

Lemma checkAccess_single_permission (tenant : TenantRecord) (permission : string)
    (rs : option (list string)) (requireAll : bool) :
  has_items rs = false ->
  checkAccess tenant {| req_roles := rs; req_permissions := Some [permission] |}
              requireAll
  = checkPermission (permissions tenant) permission.
Proof.
  intros Hrs. destruct requireAll; [| now apply checkAccess_one_permission].
  unfold checkAccess, permMatch. cbn [req_roles req_permissions].
  rewrite Hrs. simpl.
  destruct (includes (permissions tenant) "*") eqn:Hstar.
  - symmetry. apply checkPermission_star. now apply includes_In.
  - apply andb_true_r.
Qed.

(** X19: a route guarded by one permission and no role decides as the hook
    [useHasPermission] for that permission, and a route guarded by one role
    and no permission as [useHasRole], with or without [requireAll]. *)
Theorem route_single_requirement {Node : Type} (props : RouteProps Node)
    (mounted : bool) (state : RBACState TenantRecord) (x : string) :
  x <> "" ->
  (route_permission props = One x -> to_array (route_role props) = [] ->
   route_hasAccess props mounted state = useHasPermission mounted state x)
  /\ (route_role props = One x -> to_array (route_permission props) = [] ->
      route_hasAccess props mounted state = useHasRole mounted state x).
Proof.
  intros Hne. apply truthy_string_nonempty in Hne.
  unfold route_hasAccess, useHasPermission, useHasRole.
  split; intros Hone Hnone; rewrite Hone, Hnone; cbn [to_array]; rewrite Hne;
    destruct (negb mounted || isLoading state); try reflexivity;
    destruct (active_entry state) as [t | |]; try reflexivity.
  f_equal. rewrite (checkAccess_single_permission t x (Some []) _ eq_refl).
  now rewrite (checkAccess_one_permission t x None eq_refl).
Qed.

Lemma route_single_requirement_witness :
  route_hasAccess
    {| route_children := "page"; route_permission := One "billing:view";
       route_role := Absent; fallbackPath := "/"; route_fallback := None;
       route_requireAll := true; loadingComponent := None; redirect := true |}
    true billing_state
  = useHasPermission true billing_state "billing:view".
Proof.
  apply (proj1 (route_single_requirement
                  {| route_children := "page"; route_permission := One "billing:view";
                     route_role := Absent; fallbackPath := "/";
                     route_fallback := None; route_requireAll := true;
                     loadingComponent := None; redirect := true |}
                  true billing_state "billing:view" ltac:(discriminate)));
    reflexivity.
Defined.

(** One render: a navigation excludes the children and raises
    [shouldRedirect], a raised [shouldRedirect] excludes the children and
    stays raised, and a navigation goes to [fallbackPath] under [redirect]. *)
Lemma route_render_facts {Node : Type} (props : RouteProps Node) (local : RouteLocal)
    (state : RBACState TenantRecord) (view : View Node) (local' : RouteLocal)
    (navigation : option string) :
  route_render props local state = Ok (view, local', navigation) ->
  (is_defined navigation = true ->
     shows_children view = false /\ shouldRedirect local' = true)
  /\ (shouldRedirect local = true ->
     shows_children view = false /\ shouldRedirect local' = true)
  /\ (navigation = None \/
      (navigation = Some (fallbackPath props) /\ redirect props = true))
  /\ route_mounted local' = true.
Proof.
  unfold route_render.
  destruct (route_hasAccess props (route_mounted local) state) as [hasAccess | error];
    [| discriminate].
  intros [= <- <- <-]. cbn [shouldRedirect route_mounted].
  destruct (deps_changed _ _), (redirect props), (route_mounted local),
    (isLoading state), hasAccess, (shouldRedirect local);
    cbn; repeat split; try discriminate; auto.
Qed.

Lemma route_run_sticky {Node : Type} (props : RouteProps Node)
    (states : list (RBACState TenantRecord)) (local : RouteLocal) :
  shouldRedirect local = true ->
  Forall (fun o => shows_children (fst o) = false) (route_run props local states).
Proof.
  revert local.
  induction states as [| state rest IH]; intros local Hsticky; cbn [route_run].
  - constructor.
  - destruct (route_render props local state) as [[[view local'] navigation] | error]
      eqn:Hrender; [| constructor].
    pose proof (route_render_facts props local state _ _ _ Hrender) as (_ & Hkeep & _).
    destruct (Hkeep Hsticky) as [Hview Hlocal].
    constructor; [exact Hview | now apply IH].
Qed.

(** X20: a redirect supersedes the content, for good.  Over any succession
    of store states, the render in which [ProtectedRoute] calls
    [router.replace] does not show the children, and neither does any later
    render, even if access is granted afterwards. *)
Theorem route_redirect_supersedes_content {Node : Type} (props : RouteProps Node)
    (states : list (RBACState TenantRecord))
    (before after : list (View Node * option string))
    (view : View Node) (path : string) :
  route_run props route_start states = (before ++ (view, Some path) :: after)%list ->
  shows_children view = false
  /\ Forall (fun o => shows_children (fst o) = false) after.
Proof.
  generalize route_start as local. revert before.
  induction states as [| state rest IH]; intros before local Hrun;
    cbn [route_run] in Hrun.
  - now destruct before.
  - destruct (route_render props local state) as [[[v local'] navigation] | error]
      eqn:Hrender; [| now destruct before].
    pose proof (route_render_facts props local state _ _ _ Hrender) as (Hfire & _).
    destruct before as [| b before']; simpl in Hrun.
    + injection Hrun as -> -> Hafter. destruct (Hfire eq_refl) as [Hview Hlocal].
      split; [exact Hview |]. rewrite <- Hafter. now apply route_run_sticky.
    + injection Hrun as _ Hrest. now apply (IH before' local').
Qed.

Lemma route_redirect_supersedes_content_witness :
  let props := {| route_children := "page"; route_permission := One "billing:view";
                  route_role := Absent; fallbackPath := "/login";
                  route_fallback := None; route_requireAll := false;
                  loadingComponent := None; redirect := true |} in
  let denied := current (run (mount false None) [CallSetAuth (StringArray ["x:view"])]) in
  route_hasAccess props true billing_state = Ok true /\
  exists after,
    route_run props route_start [denied; denied; billing_state] =
      ([(LoadingView None, None)] ++ (DeniedView None, Some "/login") :: after)%list
    /\ Forall (fun o => shows_children (fst o) = false) after.
Proof.
  intros props denied. split; [reflexivity |].
  exists (route_run props
            {| route_mounted := true; shouldRedirect := true;
               last_deps := Some (true, false, false) |}
            [billing_state]).
  assert (Hrun : route_run props route_start [denied; denied; billing_state] =
                 ([(LoadingView None, None)] ++
                  (DeniedView None, Some "/login")
                  :: route_run props
                       {| route_mounted := true; shouldRedirect := true;
                          last_deps := Some (true, false, false) |}
                       [billing_state])%list) by reflexivity.
  split; [exact Hrun |].
  exact (proj2 (route_redirect_supersedes_content props _ _ _ _ _ Hrun)).
Defined.

Lemma deps_unchanged (m l h : bool) : deps_changed (Some (m, l, h)) (m, l, h) = false.
Proof. now destruct m, l, h. Qed.

Lemma route_run_settled {Node : Type} (props : RouteProps Node)
    (state : RBACState TenantRecord) (n : nat) (local : RouteLocal)
    (hasAccess : bool) :
  route_mounted local = true ->
  route_hasAccess props true state = Ok hasAccess ->
  last_deps local = Some (true, isLoading state, hasAccess) ->
  navigations (route_run props local (repeat state n)) = 0.
Proof.
  intros Hm Haccess. revert local Hm.
  induction n as [| n IH]; intros local Hm Hdeps; [reflexivity |].
  cbn [repeat route_run]. unfold route_render.
  rewrite Hm, Haccess, Hdeps, deps_unchanged.
  cbn [andb]. unfold navigations in *. cbn [List.filter snd is_defined].
  apply IH; reflexivity.
Qed.


(** The first render: the hook is not mounted yet, the placeholder is
    shown and nothing else happens. *)
Lemma route_first_render {Node : Type} (props : RouteProps Node)
    (state : RBACState TenantRecord) :
  route_render props route_start state =
    Ok (LoadingView (loadingComponent props),
        {| route_mounted := true; shouldRedirect := false;
           last_deps := Some (false, isLoading state, false) |},
        None).
Proof.
  unfold route_render, route_start, route_hasAccess.
  cbn [route_mounted shouldRedirect last_deps deps_changed negb orb andb].
  now rewrite !andb_false_r.
Qed.

(** The second render against the same state. *)
Lemma route_second_render {Node : Type} (props : RouteProps Node)
    (state : RBACState TenantRecord) (hasAccess : bool) :
  route_hasAccess props true state = Ok hasAccess ->
  let fires := redirect props && negb (isLoading state) && negb hasAccess in
  exists view,
    route_render props
      {| route_mounted := true; shouldRedirect := false;
         last_deps := Some (false, isLoading state, false) |} state
    = Ok (view,
          {| route_mounted := true; shouldRedirect := fires;
             last_deps := Some (true, isLoading state, hasAccess) |},
          if fires then Some (fallbackPath props) else None).
Proof.
  intros Haccess. unfold route_render.
  cbn [route_mounted shouldRedirect last_deps deps_changed negb orb andb fst snd
       Bool.eqb].
  rewrite Haccess. rewrite andb_true_r. eexists. reflexivity.
Qed.

(** X21: while the store does not change, [ProtectedRoute] navigates at most
    once: over [n] renders against the same state there is exactly one call
    of [router.replace] when there are at least two renders, [redirect] is
    set, the store is loaded and [hasAccess] is false, and none otherwise
    (none also when computing [hasAccess] throws).  Every
    navigation of any run goes to [fallbackPath] and needs [redirect]. *)
Theorem route_redirects_once {Node : Type} (props : RouteProps Node)
    (state : RBACState TenantRecord) (n : nat)
    (states : list (RBACState TenantRecord)) :
  navigations (route_run props route_start (repeat state n)) =
    (if (2 <=? n)%nat && redirect props && negb (isLoading state)
        && denies (route_hasAccess props true state)
     then 1 else 0)
  /\ Forall (fun o => snd o = None \/
                      (snd o = Some (fallbackPath props) /\ redirect props = true))
            (route_run props route_start states).
Proof.
  split.
  - destruct n as [| [| n]]; [reflexivity | |].
    + cbn [repeat route_run]. now rewrite route_first_render.
    + cbn [repeat route_run]. rewrite route_first_render.
      change (2 <=? S (S n))%nat with true. cbn [andb].
      destruct (route_hasAccess props true state) as [hasAccess | error] eqn:Haccess.
      * destruct (route_second_render props state hasAccess Haccess) as [v Hrender].
        rewrite Hrender.
        unfold navigations. cbn [List.filter snd is_defined].
        pose proof (route_run_settled props state n
                      {| route_mounted := true;
                         shouldRedirect := redirect props && negb (isLoading state)
                                           && negb hasAccess;
                         last_deps := Some (true, isLoading state, hasAccess) |}
                      hasAccess eq_refl Haccess eq_refl) as Hrest.
        unfold navigations in Hrest.
        replace (denies (Ok hasAccess)) with (negb hasAccess) by now destruct hasAccess.
        destruct (redirect props && negb (isLoading state) && negb hasAccess);
          cbn [is_defined length]; now rewrite Hrest.
      * unfold route_render at 1. cbn [route_mounted]. rewrite Haccess.
        cbn [denies]. now rewrite andb_false_r.
  - generalize route_start as local.
    induction states as [| s rest IH]; intros local; cbn [route_run];
      [constructor |].
    destruct (route_render props local s) as [[[v local'] navigation] | error]
      eqn:Hrender; [| constructor].
    pose proof (route_render_facts props local s _ _ _ Hrender) as (_ & _ & Hnav & _).
    constructor; [exact Hnav | apply IH].
Qed.

(** ** More about the dispatcher *)

Lemma property_count_handlers {World Return : Type}
    (handlers : list (string * Eff World Return)) (key : string) :
  property key (count_handlers handlers) =
    option_map (fun h => counting (fun _ : unit => h) tt) (property key handlers).
Proof.
  induction handlers as [| [k h] rest IH]; simpl; [reflexivity |].
  now destruct (String.eqb k key).
Qed.

(** Running one counted handler moves the counter by one. *)
Lemma counted_handler_runs_once {World Return : Type} (h : Eff World Return)
    (n : nat) (w : World) :
  fst (snd (bind (counting (fun _ : unit => h) tt) (fun r => ret (Some r)) (n, w)))
  = S n.
Proof.
  unfold bind, counting, ret. simpl. destruct (h w) as [[r | e] w']; reflexivity.
Qed.

(** The loop over counted handlers runs one of them or falls through. *)
Lemma match_loop_counted {World Return : Type} (held : list string)
    (entries : list (string * Eff World Return))
    (fallback : Eff (nat * World) (option Return)) (n : nat) (w : World) :
  fst (snd (match_loop held (count_handlers entries) fallback (n, w))) = S n
  \/ (match_loop held (count_handlers entries) fallback (n, w) = fallback (n, w)
      /\ no_match held entries).
Proof.
  unfold no_match.
  induction entries as [| [k h] rest IH]; cbn [count_handlers map match_loop fst snd].
  - right. split; [reflexivity | constructor].
  - destruct (String.eqb k "default") eqn:Hk.
    + apply String.eqb_eq in Hk.
      destruct IH as [H | [H1 H2]]; [now left | right].
      split; [exact H1 | constructor; [now left | assumption]].
    + destruct (checkPermission held k) eqn:Hacc.
      * left. apply counted_handler_runs_once.
      * destruct IH as [H | [H1 H2]]; [now left | right].
        split; [exact H1 | constructor; [now right | assumption]].
Qed.

(** X22: the dispatcher [match] invokes at most one handler.  With every
    handler counted, a call moves the counter by one or leaves it; and when it
    leaves it, nothing matched and there is no [default]: the result is
    [undefined] and the world is untouched. *)
Theorem matchPermission_at_most_one_handler {World Return : Type}
    (held : list string) (handlers : list (string * Eff World Return))
    (n : nat) (w : World) :
  let outcome := match_ held (count_handlers handlers) (n, w) in
  fst (snd outcome) = S n
  \/ (outcome = (Ok None, (n, w)) /\ no_match held handlers
      /\ property "default" handlers = None).
Proof.
  unfold match_.
  destruct (match_loop_counted held handlers (run_default (count_handlers handlers))
              n w) as [H | [Hloop Hnone]]; [now left |].
  cbn zeta. rewrite Hloop.
  unfold run_default. rewrite property_count_handlers.
  destruct (property "default" handlers) as [h |]; cbn [option_map].
  - left. apply counted_handler_runs_once.
  - right. repeat split. exact Hnone.
Qed.

(** ** More about loading arbitrary values *)

(** X23: on every value of the declared type [TenantAuthInput[] | string[]]
    the untyped [processTenants] returns, with the records of the typed one,
    and the untyped [setAuth] never takes its [catch] branch: it is the typed
    [setAuth]. *)
Theorem typed_input_never_throws (authInput : AuthInput)
    (state prev : RBACState TenantRecord) :
  Untyped.processTenants (Untyped.of_input authInput)
    = Ok (Untyped.of_record <$> processTenants authInput)
  /\ Untyped.setAuth (Untyped.of_state state) (Untyped.of_input authInput)
       (Untyped.of_state prev)
     = Ok (Untyped.of_state (setAuth state authInput prev)).
Proof. split; [apply processTenants_typed | apply setAuth_typed]. Qed.

(** When [processTenants] throws, [setAuth] only clears [isLoading]. *)
Lemma setAuth_on_throw (state prev : RBACState Untyped.RawTenant)
    (authInput : Untyped.JsVal) (error : Thrown) :
  Untyped.processTenants authInput = Throw error ->
  Untyped.setAuth state authInput prev =
    Ok {| activeTenantId := activeTenantId prev; tenants := tenants prev;
          isLoading := false |}.
Proof. intros H. unfold Untyped.setAuth, try_catch. now rewrite H. Qed.

(** X24: a value that is not an array (an object, a string, [null], ...) is
    never accepted: [processTenants] throws a [TypeError], and [setAuth] keeps
    the tenants and the active tenant and clears [isLoading]. *)
Theorem non_array_input_is_rejected (state prev : RBACState Untyped.RawTenant)
    (authInput : Untyped.JsVal) :
  (forall elems, authInput <> Untyped.JArr elems) ->
  Untyped.processTenants authInput = Throw TypeErrorObject
  /\ Untyped.setAuth state authInput prev =
       Ok {| activeTenantId := activeTenantId prev; tenants := tenants prev;
             isLoading := false |}.
Proof.
  intros Hnot.
  assert (Hthrow : Untyped.processTenants authInput = Throw TypeErrorObject).
  { destruct authInput; try reflexivity. now destruct (Hnot elems). }
  split; [exact Hthrow | now apply (setAuth_on_throw _ _ _ TypeErrorObject)].
Qed.

Lemma non_array_input_is_rejected_witness :
  Untyped.setAuth empty_state
    (Untyped.JObj [("roles", Untyped.JArr []); ("permissions", Untyped.JArr [])])
    empty_state
  = Ok {| activeTenantId := None; tenants := ∅; isLoading := false |}.
Proof.
  apply (non_array_input_is_rejected empty_state empty_state
           (Untyped.JObj [("roles", Untyped.JArr []); ("permissions", Untyped.JArr [])])).
  discriminate.
Defined.

(** Whether an element can be added does not depend on the tenants gathered
    so far. *)
Lemma add_tenant_throws_always (acc acc' : gmap string Untyped.RawTenant)
    (curr : Untyped.JsVal) (error : Thrown) :
  Untyped.add_tenant acc curr = Throw error ->
  exists error', Untyped.add_tenant acc' curr = Throw error'.
Proof.
  unfold Untyped.add_tenant, mbind, result_bind.
  destruct (Untyped.get curr "tenantId") as [id | e1]; [| eauto].
  destruct (Untyped.toPropertyKey id) as [key | e2]; [| eauto].
  destruct (Untyped.get curr "roles") as [rs | e3]; [| eauto].
  destruct (Untyped.get curr "permissions") as [ps | e4]; [| eauto].
  destruct (Untyped.reduce_of ps _ ∅) as [pMap | e5]; [discriminate | eauto].
Qed.

Lemma reduce_throws (elems : list Untyped.JsVal) (bad : Untyped.JsVal)
    (acc : gmap string Untyped.RawTenant) :
  In bad elems ->
  (exists error, Untyped.add_tenant ∅ bad = Throw error) ->
  exists error, Untyped.reduce Untyped.add_tenant elems acc = Throw error.
Proof.
  intros Hin [error Hbad]. revert acc.
  induction elems as [| x rest IH]; intros acc; [contradiction |].
  cbn [Untyped.reduce]. unfold mbind, result_bind.
  destruct (Untyped.add_tenant acc x) as [acc' | e] eqn:Hx; [| eauto].
  destruct Hin as [-> | Hin]; [| now apply IH].
  destruct (add_tenant_throws_always ∅ acc bad error Hbad) as [e' He'].
  congruence.
Qed.

(** X25: a load is all or nothing.  If one element of an array of tenants
    cannot be processed (it is [null], has no [permissions] array, ...), the
    whole array is rejected, however many well-formed elements it has and
    wherever the bad one stands: [processTenants] throws and [setAuth] keeps
    the tenants of before. *)
Theorem malformed_entry_rejects_load (state prev : RBACState Untyped.RawTenant)
    (elems : list Untyped.JsVal) (bad : Untyped.JsVal) :
  In bad elems ->
  Untyped.first_is_string elems = false ->
  (exists error, Untyped.add_tenant ∅ bad = Throw error) ->
  (exists error, Untyped.processTenants (Untyped.JArr elems) = Throw error)
  /\ Untyped.setAuth state (Untyped.JArr elems) prev =
       Ok {| activeTenantId := activeTenantId prev; tenants := tenants prev;
             isLoading := false |}.
Proof.
  intros Hin Hfirst Hbad.
  assert (Hthrow : exists error,
             Untyped.processTenants (Untyped.JArr elems) = Throw error).
  { unfold Untyped.processTenants. rewrite Hfirst.
    destruct elems as [| x rest]; [contradiction |].
    cbn [length Nat.eqb orb Untyped.reduce_of].
    now apply (reduce_throws (x :: rest) bad). }
  split; [exact Hthrow |].
  destruct Hthrow as [error Hthrow]. now apply (setAuth_on_throw _ _ _ error).
Qed.

Lemma malformed_entry_rejects_load_witness :
  let good := Untyped.JObj [("tenantId", Untyped.JStr "t1");
                            ("permissions", Untyped.JArr [Untyped.JStr "a:view"])] in
  let bad := Untyped.JObj [("tenantId", Untyped.JStr "t2")] in
  In bad [good; bad] /\
  Untyped.setAuth empty_state (Untyped.JArr [good; bad]) empty_state
  = Ok {| activeTenantId := None; tenants := ∅; isLoading := false |}.
Proof.
  intros good bad.
  assert (Hin : In bad [good; bad]) by (right; now left).
  split; [exact Hin |].
  apply (malformed_entry_rejects_load empty_state empty_state [good; bad] bad Hin
           eq_refl).
  now exists TypeErrorObject.
Defined.
